(** * Synapse: transport-agnostic message consumption

    A shallow embedding of the Python package [synapse]: the response and
    request models, the subscriber / publisher / handler protocols, the
    RabbitMQ adapter (publisher and subscriber with its delivery-tag
    correlation table) and the generic consumer loop in its blocking and its
    [async] variant.

    Python objects are mutated in place and exceptions leave every mutation
    made before the [raise] visible.  Methods are therefore functions from
    the state of the objects they can reach to an outcome (a value or a raised
    exception) together with the new state. *)

From Stdlib Require Import ZArith Ascii String.
From stdpp Require Import base decidable list strings gmap fin_maps pretty.

(** ** Python values, exceptions and methods *)

(** [bytes] *)
Abbreviation bytes := (list Byte.byte).

(** An exception object: its class name and its message. *)
Record exn := Exception { exn_class : string; exn_message : string }.

Inductive outcome (A : Type) : Type :=
| Return (a : A)
| Raise (e : exn).
Arguments Return {A} a.
Arguments Raise {A} e.

(** A method running against state [S]. *)
Definition M (S A : Type) : Type := S -> outcome A * S.

Definition ret {S A} (a : A) : M S A := fun s => (Return a, s).

Definition raise {S A} (e : exn) : M S A := fun s => (Raise e, s).

Definition bind {S A B} (m : M S A) (k : A -> M S B) : M S B :=
  fun s =>
    match m s with
    | (Return a, s') => k a s'
    | (Raise e, s') => (Raise e, s')
    end.

Declare Scope py_scope.
Delimit Scope py_scope with py.
Notation "'let*' x ':=' m 'in' k" := (bind m (fun x => k))
  (at level 10, x pattern, m at level 100, k at level 200) : py_scope.
Notation "m ;; k" := (bind m (fun _ => k))
  (at level 100, k at level 200, right associativity) : py_scope.
Local Open Scope py_scope.

(** [str(n)] for an [int]: the decimal numeral, with a leading [-] below zero. *)
Definition str (n : Z) : string := pretty n.
Global Arguments str : simpl never.

(** [c in s] for a one-character string [c]. *)
Fixpoint str_contains (c : ascii) (s : string) : bool :=
  match s with
  | EmptyString => false
  | String a s' => if decide (a = c) then true else str_contains c s'
  end.

(** [s.split(sep, maxsplit)] for a one-character separator; [cur] holds the
    characters of the piece being read. *)
Fixpoint str_split_go (sep : ascii) (maxsplit : nat) (cur s : string)
  : list string :=
  match s with
  | EmptyString => [cur]
  | String a s' =>
      match maxsplit with
      | O => [cur +:+ s]
      | S n =>
          if decide (a = sep) then cur :: str_split_go sep n "" s'
          else str_split_go sep maxsplit (cur +:+ String a "") s'
      end
  end.

Definition str_split (sep : ascii) (maxsplit : nat) (s : string) : list string :=
  str_split_go sep maxsplit "" s.

(** ** synapse.models.response *)

Record Message := { data : bytes }.

Record ReceivedMessage := { message : Message; ack_id : string }.

Record PullResponse := { received_messages : list ReceivedMessage }.

Record PublishFuture := { message_id : string }.

Definition result (self : PublishFuture) : string := message_id self.

(** ** synapse.models.request *)

Module PullRequest.
Record t := { subscription : string; max_messages : Z }.
End PullRequest.

Module AcknowledgeRequest.
Record t := { subscription : string; ack_ids : list string }.
End AcknowledgeRequest.

(** ** synapse.protocols

    A protocol is a structural interface: a record of methods over the state
    [S] its implementation can reach.  A timeout is a number of seconds; the
    consumers pass the integer [30]. *)

Module Protocols.

Record PubSubSubscriber (S : Type) := {
  pull : PullRequest.t -> Z -> M S PullResponse;
  acknowledge : AcknowledgeRequest.t -> M S unit;
}.
Arguments pull {S} _ _ _.
Arguments acknowledge {S} _ _.

Record AsyncPubSubSubscriber (S : Type) := {
  async_pull : PullRequest.t -> Z -> M S PullResponse;
  async_acknowledge : AcknowledgeRequest.t -> M S unit;
}.
Arguments async_pull {S} _ _ _.
Arguments async_acknowledge {S} _ _.

Record PubSubPublisher (S Any : Type) := {
  publish : string -> bytes -> gmap string Any -> M S PublishFuture;
}.
Arguments publish {S Any} _ _ _ _.

Record MessageHandler (S Request : Type) := {
  handle : Request -> M S unit;
}.
Arguments handle {S Request} _ _.

Record AsyncMessageHandler (S Request : Type) := {
  async_handle : Request -> M S unit;
}.
Arguments async_handle {S Request} _ _.

End Protocols.

(** ** pika: the part of [BlockingChannel] the adapter calls

    The broker library is not part of the package; its channel is an
    interface over an arbitrary channel state [C].  Every call may raise. *)

(** [pika.spec.Basic.Deliver], of which only the delivery tag is read. *)
Record Deliver := { delivery_tag : Z }.

(** [pika.BasicProperties], of which the adapter sets [delivery_mode]; a
    field that is not given is [None]. *)
Record BasicProperties := {
  headers : option (gmap string string);
  delivery_mode : option Z;
}.

(** What the generator of [consume] yields: [(method, properties, body)], or
    [(None, None, None)] when the inactivity timeout elapses. *)
Definition consumed : Type := option (Deliver * BasicProperties * bytes).

Class BlockingChannel (C : Type) := {
  (** [consume(queue, auto_ack, inactivity_timeout)]: the items the generator
      yields, in order. *)
  consume : string -> bool -> Z -> M C (list consumed);
  (** [cancel()]: the number of messages requeued. *)
  cancel : M C Z;
  (** [basic_ack(delivery_tag)] *)
  basic_ack : Z -> M C unit;
  (** [basic_publish(exchange, routing_key, body, properties)] *)
  basic_publish : string -> string -> bytes -> BasicProperties -> M C unit;
}.

Global Hint Mode BlockingChannel ! : typeclass_instances.

(** ** synapse.adapters.rabbitmq.subscriber *)

Module RabbitMQSubscriber.
Section subscriber.
Context {C : Type} `{!BlockingChannel C}.

Record t := {
  _channel : C;
  (** ack_id (str) -> delivery_tag (int) *)
  _pending_acks : gmap string Z;
}.

(** [__init__], given the channel [connection.channel()] returned *)
Definition __init__ (channel : C) : t :=
  {| _channel := channel; _pending_acks := ∅ |}.

(** [self._channel.<method>(...)] *)
Definition on_channel {A} (m : M C A) : M t A :=
  fun self =>
    let '(o, c) := m (_channel self) in
    (o, {| _channel := c; _pending_acks := _pending_acks self |}).

(** [self._pending_acks[ack_id] = tag] *)
Definition pending_acks_setitem (ack_id : string) (tag : Z) : M t unit :=
  fun self =>
    (Return tt,
     {| _channel := _channel self;
        _pending_acks := <[ack_id := tag]> (_pending_acks self) |}).

(** [self._pending_acks.pop(ack_id, None)] *)
Definition pending_acks_pop (ack_id : string) : M t (option Z) :=
  fun self =>
    (Return (_pending_acks self !! ack_id),
     {| _channel := _channel self;
        _pending_acks := delete ack_id (_pending_acks self) |}).

(** The body of the [for] loop over the generator.  Both of its paths end
    in [break], so the loop looks at the first item only; a generator that
    yields nothing leaves the loop at once. *)
Definition pull_loop (items : list consumed)
    (received_messages : list ReceivedMessage) : M t (list ReceivedMessage) :=
  match items with
  | [] => ret received_messages
  | None :: _ =>
      (* Timeout reached, no message available *)
      ret received_messages
  | Some (method, _properties, body) :: _ =>
      let ack_id := str (delivery_tag method) in
      pending_acks_setitem ack_id (delivery_tag method) ;;
      ret (received_messages
             ++ [ {| message := {| data := body |}; ack_id := ack_id |} ])
  end.

Definition pull (request : PullRequest.t) (timeout : Z) : M t PullResponse :=
  let queue := PullRequest.subscription request in
  let* items := on_channel (consume queue false timeout) in
  let* received_messages := pull_loop items [] in
  (* Cancel consumer to allow reuse *)
  on_channel cancel ;;
  ret {| received_messages := received_messages |}.

Fixpoint acknowledge_loop (ack_ids : list string) : M t unit :=
  match ack_ids with
  | [] => ret tt
  | ack_id :: ack_ids' =>
      let* delivery_tag := pending_acks_pop ack_id in
      match delivery_tag with
      | Some delivery_tag => on_channel (basic_ack delivery_tag)
      | None => ret tt
      end ;;
      acknowledge_loop ack_ids'
  end.

Definition acknowledge (request : AcknowledgeRequest.t) : M t unit :=
  acknowledge_loop (AcknowledgeRequest.ack_ids request).

(** The adapter satisfies the subscriber protocol. *)
Definition as_PubSubSubscriber : Protocols.PubSubSubscriber t :=
  {| Protocols.pull := pull; Protocols.acknowledge := acknowledge |}.
End subscriber.
Arguments t C : clear implicits.
End RabbitMQSubscriber.

(** ** synapse.adapters.rabbitmq.publisher *)

Module RabbitMQPublisher.
Section publisher.
Context {C : Type} `{!BlockingChannel C}.

Record t := { _channel : C }.

Definition __init__ (channel : C) : t := {| _channel := channel |}.

Definition on_channel {A} (m : M C A) : M t A :=
  fun self =>
    let '(o, c) := m (_channel self) in (o, {| _channel := c |}).

(** [exchange, routing_key = topic.split(":", 1)]: unpacking anything but a
    two-element list raises [ValueError]. *)
Definition unpack2 (l : list string) : M t (string * string) :=
  match l with
  | [exchange; routing_key] => ret (exchange, routing_key)
  | _ => raise (Exception "ValueError" "wrong number of values to unpack")
  end.

Definition publish {Any : Type}
    (topic : string) (data : bytes) (_kwargs : gmap string Any)
  : M t PublishFuture :=
  let* (exchange, routing_key) :=
    (if str_contains ":" topic then unpack2 (str_split ":" 1 topic)
     else ret ("", topic)) in
  on_channel
    (basic_publish exchange routing_key data
       {| headers := None; delivery_mode := Some 2%Z (* Persistent *) |}) ;;
  (* RabbitMQ doesn't return message IDs for basic_publish *)
  ret {| message_id := "" |}.

Definition as_PubSubPublisher {Any : Type} : Protocols.PubSubPublisher t Any :=
  {| Protocols.publish := publish |}.
End publisher.
Arguments t C : clear implicits.
End RabbitMQPublisher.

(** ** synapse.consumer

    A consumer holds its subscription, handler, request model and subscriber
    for its whole life and one mutable field, [_running].  The handler and the
    subscriber are objects of the host program: they may hold a reference to
    the consumer and call [start()] or [stop()] on it, as may any other task
    that runs while the [async] consumer is suspended.  The state a
    collaborator runs against is therefore the consumer's flag together with
    the state [W] of the rest of the program. *)

Record Heap (W : Type) := { _running : bool; world : W }.
Arguments _running {W} _.
Arguments world {W} _.

(** The [json] module, of which [loads] is called. *)
Record JsonModule (S Json : Type) := { loads : bytes -> M S Json }.
Arguments loads {S Json} _ _.

Module MessageConsumer.
Import Protocols.
Section consumer.
Context {W Json Request : Type}.
Variable json : JsonModule (Heap W) Json.

Record t := {
  subscription : string;
  handler : MessageHandler (Heap W) Request;
  (** the model class called on the decoded data as keyword arguments:
      validation, raising on a mismatch *)
  request_model : Json -> M (Heap W) Request;
  subscriber : PubSubSubscriber (Heap W);
}.

(** [__init__]: the four fields are stored and [_running] is [False]. *)
Definition __init__ (subscription : string)
    (handler : MessageHandler (Heap W) Request)
    (request_model : Json -> M (Heap W) Request)
    (subscriber : PubSubSubscriber (Heap W)) : M (Heap W) t :=
  fun h =>
    (Return {| subscription := subscription; handler := handler;
               request_model := request_model; subscriber := subscriber |},
     {| _running := false; world := world h |}).

Definition start (self : t) : M (Heap W) unit :=
  fun h => (Return tt, {| _running := true; world := world h |}).

Definition stop (self : t) : M (Heap W) unit :=
  fun h => (Return tt, {| _running := false; world := world h |}).

Definition process_one_message (self : t) : M (Heap W) unit :=
  (* Pull message from subscription *)
  let* response :=
    self.(subscriber).(pull)
      {| PullRequest.subscription := self.(subscription);
         PullRequest.max_messages := 1 |}
      30 in
  match received_messages response with
  | [] => ret tt (* No messages available *)
  | received_message :: _ =>
      let* message_data := json.(loads) (data (message received_message)) in
      (* Validate message *)
      let* request := self.(request_model) message_data in
      (* Route to handler *)
      self.(handler).(handle) request ;;
      (* Acknowledge message *)
      self.(subscriber).(acknowledge)
        {| AcknowledgeRequest.subscription := self.(subscription);
           AcknowledgeRequest.ack_ids := [ack_id received_message] |}
  end.

(** [while self._running: self.process_one_message()].  The loop need not
    end; [fuel] bounds the number of times the condition is evaluated, and
    [None] means the bound was reached with the loop still going. *)
Fixpoint run (fuel : nat) (self : t) (h : Heap W)
  : option (outcome unit * Heap W) :=
  match fuel with
  | O => None
  | S fuel' =>
      if _running h then
        match process_one_message self h with
        | (Return _, h') => run fuel' self h'
        | (Raise e, h') => Some (Raise e, h')
        end
      else Some (Return tt, h)
  end.
End consumer.
Arguments t W Json Request : clear implicits.
End MessageConsumer.

Module AsyncMessageConsumer.
Import Protocols.
Section consumer.
Context {W Json Request : Type}.
Variable json : JsonModule (Heap W) Json.

(** [await c] runs the coroutine [c] to its end; what other tasks do to the
    program's state while this one is suspended is part of the awaited
    collaborator's effect on the heap. *)
Definition await {A} (coroutine : M (Heap W) A) : M (Heap W) A := coroutine.

Record t := {
  subscription : string;
  handler : AsyncMessageHandler (Heap W) Request;
  request_model : Json -> M (Heap W) Request;
  subscriber : AsyncPubSubSubscriber (Heap W);
}.

Definition __init__ (subscription : string)
    (handler : AsyncMessageHandler (Heap W) Request)
    (request_model : Json -> M (Heap W) Request)
    (subscriber : AsyncPubSubSubscriber (Heap W)) : M (Heap W) t :=
  fun h =>
    (Return {| subscription := subscription; handler := handler;
               request_model := request_model; subscriber := subscriber |},
     {| _running := false; world := world h |}).

Definition start (self : t) : M (Heap W) unit :=
  fun h => (Return tt, {| _running := true; world := world h |}).

Definition stop (self : t) : M (Heap W) unit :=
  fun h => (Return tt, {| _running := false; world := world h |}).

Definition process_one_message (self : t) : M (Heap W) unit :=
  let* response :=
    await (self.(subscriber).(async_pull)
             {| PullRequest.subscription := self.(subscription);
                PullRequest.max_messages := 1 |}
             30) in
  match received_messages response with
  | [] => ret tt
  | received_message :: _ =>
      let* message_data := json.(loads) (data (message received_message)) in
      let* request := self.(request_model) message_data in
      await (self.(handler).(async_handle) request) ;;
      await (self.(subscriber).(async_acknowledge)
               {| AcknowledgeRequest.subscription := self.(subscription);
                  AcknowledgeRequest.ack_ids := [ack_id received_message] |})
  end.

Fixpoint run (fuel : nat) (self : t) (h : Heap W)
  : option (outcome unit * Heap W) :=
  match fuel with
  | O => None
  | S fuel' =>
      if _running h then
        match await (process_one_message self) h with
        | (Return _, h') => run fuel' self h'
        | (Raise e, h') => Some (Raise e, h')
        end
      else Some (Return tt, h)
  end.
End consumer.
Arguments t W Json Request : clear implicits.
End AsyncMessageConsumer.

(** ** Recording collaborators

    The properties below speak of which calls are made, in which order and
    with which arguments.  Like the [unittest.mock] objects of the package's
    tests, a recording wrapper appends each call to a list and then runs the
    behaviour it was given, which is arbitrary. *)

(** *** A recording channel *)

Inductive channel_call :=
| call_consume (queue : string) (auto_ack : bool) (inactivity_timeout : Z)
| call_cancel
| call_basic_ack (delivery_tag : Z)
| call_basic_publish (exchange routing_key : string) (body : bytes)
    (properties : BasicProperties).

Record MockChannel (C : Type) := {
  method_calls : list channel_call;
  wraps : C;
}.
Arguments method_calls {C} _.
Arguments wraps {C} _.

Definition forwarded {C A} (c : channel_call) (m : M C A) : M (MockChannel C) A :=
  fun ch =>
    let '(o, w) := m (wraps ch) in
    (o, {| method_calls := method_calls ch ++ [c]; wraps := w |}).

#[global] Instance MockChannel_BlockingChannel {C} `{!BlockingChannel C}
  : BlockingChannel (MockChannel C) := {|
  consume queue auto_ack inactivity_timeout :=
    forwarded (call_consume queue auto_ack inactivity_timeout)
      (consume queue auto_ack inactivity_timeout);
  cancel := forwarded call_cancel cancel;
  basic_ack tag := forwarded (call_basic_ack tag) (basic_ack tag);
  basic_publish exchange routing_key body properties :=
    forwarded (call_basic_publish exchange routing_key body properties)
      (basic_publish exchange routing_key body properties);
|}.

(** The characters of a string, to say which ones it contains. *)
Definition chars (s : string) : list ascii := list_ascii_of_string s.

(** *** Histories of a subscriber

    A caller drives a subscriber through [pull] and [acknowledge] calls and
    sees what each returns or raises.  Beside the outcome of a pull the
    history records the delivery handle the broker handed to it: the
    delivery tag of the first item of the consume generator, when that item
    is a delivery. *)




Section history.
Context {C : Type} `{!BlockingChannel C}.


End history.





(** *** Recording collaborators of a consumer *)

Inductive consumer_call {Json Request : Type} :=
| call_pull (request : PullRequest.t) (timeout : Z)
| call_loads (s : bytes)
| call_request_model (message_data : Json)
| call_handle (request : Request)
| call_acknowledge (request : AcknowledgeRequest.t).
Arguments consumer_call : clear implicits.

Record Mock (W Json Request : Type) := {
  mock_calls : list (consumer_call Json Request);
  wrapped : W;
}.
Arguments mock_calls {W Json Request} _.
Arguments wrapped {W Json Request} _.

(** The two flavours of the consumer. *)
Inductive variant := blocking | suspending.

Section mocks.
Context {W Json Request : Type}.
Import Protocols.

(** What the wrapped collaborators do when called: the [side_effect]
    functions of the mocks. *)
Record SideEffects := {
  on_pull : PullRequest.t -> Z -> M (Heap W) PullResponse;
  on_loads : bytes -> M (Heap W) Json;
  on_request_model : Json -> M (Heap W) Request;
  on_handle : Request -> M (Heap W) unit;
  on_acknowledge : AcknowledgeRequest.t -> M (Heap W) unit;
}.

(** The heap the wrapped collaborators see. *)
Definition unwrapped (h : Heap (Mock W Json Request)) : Heap W :=
  {| _running := _running h; world := wrapped (world h) |}.

(** The heap after a recorded call that left the wrapped heap as [h']. *)
Definition recorded (c : consumer_call Json Request)
    (h : Heap (Mock W Json Request)) (h' : Heap W)
  : Heap (Mock W Json Request) :=
  {| _running := _running h';
     world := {| mock_calls := mock_calls (world h) ++ [c];
                 wrapped := world h' |} |}.

Definition recording {A} (c : consumer_call Json Request) (m : M (Heap W) A)
  : M (Heap (Mock W Json Request)) A :=
  fun h => let '(o, h') := m (unwrapped h) in (o, recorded c h h').

Variable fx : SideEffects.

Definition mock_subscriber : PubSubSubscriber (Heap (Mock W Json Request)) :=
  {| pull request timeout :=
       recording (call_pull request timeout) (on_pull fx request timeout);
     acknowledge request :=
       recording (call_acknowledge request) (on_acknowledge fx request) |}.

Definition async_mock_subscriber
  : AsyncPubSubSubscriber (Heap (Mock W Json Request)) :=
  {| async_pull request timeout :=
       recording (call_pull request timeout) (on_pull fx request timeout);
     async_acknowledge request :=
       recording (call_acknowledge request) (on_acknowledge fx request) |}.

Definition mock_handler : MessageHandler (Heap (Mock W Json Request)) Request :=
  {| handle request := recording (call_handle request) (on_handle fx request) |}.

Definition async_mock_handler
  : AsyncMessageHandler (Heap (Mock W Json Request)) Request :=
  {| async_handle request :=
       recording (call_handle request) (on_handle fx request) |}.

Definition mock_json : JsonModule (Heap (Mock W Json Request)) Json :=
  {| loads s := recording (call_loads s) (on_loads fx s) |}.

Definition mock_request_model (message_data : Json)
  : M (Heap (Mock W Json Request)) Request :=
  recording (call_request_model message_data) (on_request_model fx message_data).

Variable subscription : string.

(** The consumers the tests build around the mocks. *)
Definition consumer : MessageConsumer.t (Mock W Json Request) Json Request :=
  {| MessageConsumer.subscription := subscription;
     MessageConsumer.handler := mock_handler;
     MessageConsumer.request_model := mock_request_model;
     MessageConsumer.subscriber := mock_subscriber |}.

Definition async_consumer
  : AsyncMessageConsumer.t (Mock W Json Request) Json Request :=
  {| AsyncMessageConsumer.subscription := subscription;
     AsyncMessageConsumer.handler := async_mock_handler;
     AsyncMessageConsumer.request_model := mock_request_model;
     AsyncMessageConsumer.subscriber := async_mock_subscriber |}.

Definition process_one_message (v : variant)
  : M (Heap (Mock W Json Request)) unit :=
  match v with
  | blocking => MessageConsumer.process_one_message mock_json consumer
  | suspending =>
      AsyncMessageConsumer.process_one_message mock_json async_consumer
  end.

Definition run (v : variant) (fuel : nat) (h : Heap (Mock W Json Request))
  : option (outcome unit * Heap (Mock W Json Request)) :=
  match v with
  | blocking => MessageConsumer.run mock_json fuel consumer h
  | suspending => AsyncMessageConsumer.run mock_json fuel async_consumer h
  end.

(** The request every [process_one_message] pulls with. *)
Definition pull_request : PullRequest.t :=
  {| PullRequest.subscription := subscription;
     PullRequest.max_messages := 1 |}.

(** The request acknowledging the single message [m]. *)
Definition acknowledge_request (m : ReceivedMessage) : AcknowledgeRequest.t :=
  {| AcknowledgeRequest.subscription := subscription;
     AcknowledgeRequest.ack_ids := [ack_id m] |}.

(** [k] whole iterations of the loop: each one begins with [_running] set
    and ends with [process_one_message] returning normally. *)
Fixpoint iterations (v : variant) (k : nat) (h : Heap (Mock W Json Request))
  : option (Heap (Mock W Json Request)) :=
  match k with
  | O => Some h
  | S k' =>
      if _running h then
        match process_one_message v h with
        | (Return _, h') => iterations v k' h'
        | (Raise _, _) => None
        end
      else None
  end.

(** How many of the recorded calls are pulls. *)
Definition is_pull (c : consumer_call Json Request) : bool :=
  match c with call_pull _ _ => true | _ => false end.

Definition pulls (calls : list (consumer_call Json Request)) : nat :=
  length (List.filter is_pull calls).
End mocks.

(** *** Words for the statements about [publish] *)

(** The basic properties of a message marked persistent and nothing else. *)
Definition persistent : BasicProperties :=
  {| headers := None; delivery_mode := Some 2%Z |}.

(** One persistent message handed to the broker for [exchange] and
    [routing_key], and the empty message id returned. *)
Definition publish_to {C : Type} `{!BlockingChannel C}
    (exchange routing_key : string) (data : bytes)
  : M (RabbitMQPublisher.t C) PublishFuture :=
  RabbitMQPublisher.on_channel
    (basic_publish exchange routing_key data persistent) ;;
  ret {| message_id := "" |}.

(** *** A broker for examples

    A channel whose state is the list of items its next [consume] yields.
    [consume] hands out the first item and keeps the rest; the other calls
    return normally and change nothing. *)
#[global] Instance scripted_channel : BlockingChannel (list consumed) := {|
  consume _ _ _ := fun items => (Return items, tail items);
  cancel := ret 0%Z;
  basic_ack _ := ret tt;
  basic_publish _ _ _ _ := ret tt;
|}.

(** A channel on which every call raises [ConnectionClosed]. *)
Inductive closed_channel := Closed.

Definition ConnectionClosed : exn := Exception "ConnectionClosed" "".

#[global] Instance closed_channel_BlockingChannel
  : BlockingChannel closed_channel := {|
  consume _ _ _ := raise ConnectionClosed;
  cancel := raise ConnectionClosed;
  basic_ack _ := raise ConnectionClosed;
  basic_publish _ _ _ _ := raise ConnectionClosed;
|}.

(** A channel that delivers what it holds and then loses the connection:
    [consume] yields the items, every later call raises. *)
Inductive flaky_channel := Flaky (items : list consumed).

#[global] Instance flaky_channel_BlockingChannel
  : BlockingChannel flaky_channel := {|
  consume _ _ _ := fun '(Flaky items) => (Return items, Flaky []);
  cancel := raise ConnectionClosed;
  basic_ack _ := raise ConnectionClosed;
  basic_publish _ _ _ _ := raise ConnectionClosed;
|}.

(** A channel that delivers and cancels but cannot acknowledge: [basic_ack]
    raises. *)
Inductive unacking_channel := Unacking (items : list consumed).

#[global] Instance unacking_channel_BlockingChannel
  : BlockingChannel unacking_channel := {|
  consume _ _ _ := fun '(Unacking items) => (Return items, Unacking (tail items));
  cancel := ret 0%Z;
  basic_ack _ := raise ConnectionClosed;
  basic_publish _ _ _ _ := ret tt;
|}.

(** A recording channel with nothing recorded yet. *)
Definition mock_channel {C : Type} (channel : C) : MockChannel C :=
  {| method_calls := []; wraps := channel |}.

(** *** Words for the statements about the correlation table *)



(** Every entry belongs to a message of [unacked], unless its key is the
    string form of one of the handles [dropped]. *)
Definition covered (table : gmap string Z)
    (unacked : list (option Z * ReceivedMessage)) (dropped : list Z) : Prop :=
  forall k, is_Some (table !! k) ->
    (exists handle m, (handle, m) ∈ unacked /\ ack_id m = k)
    \/ (exists tag, k = str tag /\ tag ∈ dropped).

(** Every entry holds a handle out of [handles]. *)
Definition from_broker (table : gmap string Z) (handles : list Z) : Prop :=
  forall k v, table !! k = Some v -> v ∈ handles.

(** The calls recorded in a heap. *)
Definition calls {W Json Request : Type} (h : Heap (Mock W Json Request))
  : list (consumer_call Json Request) :=
  mock_calls (world h).

(** *** A host program for examples

    The wrapped state is a queue of pull responses; each pull takes the next
    one and, as the mocks of the package's tests do, stops the consumer when
    it hands out the last.  Payloads are decoded to themselves, a payload
    that starts with the byte [x00] being malformed; an empty decoded value
    fails validation; the handler raises on the one-byte request [x01]. *)
Definition example_effects : @SideEffects (list PullResponse) bytes bytes := {|
  on_pull _ _ := fun h =>
    match world h with
    | [] => (Return {| received_messages := [] |},
             {| _running := false; world := [] |})
    | response :: rest =>
        (Return response,
         {| _running := match rest with [] => false | _ => _running h end;
            world := rest |})
    end;
  on_loads s :=
    match s with
    | Byte.x00 :: _ => raise (Exception "JSONDecodeError" "")
    | _ => ret s
    end;
  on_request_model message_data :=
    match message_data with
    | [] => raise (Exception "ValidationError" "")
    | _ => ret message_data
    end;
  on_handle request :=
    match request with
    | [Byte.x01] => raise (Exception "RuntimeError" "")
    | _ => ret tt
    end;
  on_acknowledge _ := ret tt;
|}.

Definition example_message (payload : bytes) (id : string) : ReceivedMessage :=
  {| message := {| data := payload |}; ack_id := id |}.

(** The heap of a program whose subscriber will answer with [responses]. *)
Definition example_heap (running : bool) (responses : list PullResponse)
  : Heap (Mock (list PullResponse) bytes bytes) :=
  {| _running := running;
     world := {| mock_calls := []; wrapped := responses |} |}.

(** The side effects [fx], except that every pull answers [response] and
    leaves the heap as [h1]. *)
Definition answering {W Json Request : Type} (response : PullResponse)
    (h1 : Heap W) (fx : @SideEffects W Json Request) : SideEffects :=
  {| on_pull _ _ := fun _ => (Return response, h1);
     on_loads := on_loads fx;
     on_request_model := on_request_model fx;
     on_handle := on_handle fx;
     on_acknowledge := on_acknowledge fx |}.

(** *** Counting recorded calls by kind *)

Section call_kinds.
Context {Json Request : Type}.
Implicit Types c : consumer_call Json Request.

Definition is_loads c : bool :=
  match c with call_loads _ => true | _ => false end.

Definition is_request_model c : bool :=
  match c with call_request_model _ => true | _ => false end.

Definition is_handle c : bool :=
  match c with call_handle _ => true | _ => false end.

Definition is_acknowledge c : bool :=
  match c with call_acknowledge _ => true | _ => false end.

Definition count_calls (kind : consumer_call Json Request -> bool)
    (l : list (consumer_call Json Request)) : nat :=
  length (List.filter kind l).
End call_kinds.

(** *** The consumer over the RabbitMQ subscriber

    The end-to-end wiring: the subscriber of a blocking [MessageConsumer] is
    a [RabbitMQSubscriber], which owns its channel and its table; decoding,
    validation and the handler belong to the application, which has a state
    [U] of its own and may start or stop the consumer but does not reach into
    the adapter. *)

Record Host (C U : Type) := { adapter : RabbitMQSubscriber.t C; app : U }.
Arguments adapter {C U} _.
Arguments app {C U} _.

Section wiring.
Context {C U Json Request : Type} `{!BlockingChannel C}.

(** A method of the adapter, run inside the host program. *)
Definition on_adapter {A} (m : M (RabbitMQSubscriber.t C) A)
  : M (Heap (Host C U)) A :=
  fun h =>
    let '(o, a) := m (adapter (world h)) in
    (o, {| _running := _running h;
           world := {| adapter := a; app := app (world h) |} |}).

(** A method of the application, run inside the host program. *)
Definition on_app {A} (m : M (Heap U) A) : M (Heap (Host C U)) A :=
  fun h =>
    let '(o, h') := m {| _running := _running h; world := app (world h) |} in
    (o, {| _running := _running h';
           world := {| adapter := adapter (world h); app := world h' |} |}).

Record Application := {
  app_loads : bytes -> M (Heap U) Json;
  app_request_model : Json -> M (Heap U) Request;
  app_handle : Request -> M (Heap U) unit;
}.

(** What the application does with one payload: decode, validate, handle. *)
Definition app_process (a : Application) (payload : bytes) : M (Heap U) unit :=
  let* message_data := app_loads a payload in
  let* request := app_request_model a message_data in
  app_handle a request.

(** The collaborators of a blocking [MessageConsumer] wired to the adapter
    and to [a].  [AsyncMessageConsumer] awaits what its subscriber's [pull]
    and [acknowledge] return and so needs a subscriber whose methods are
    coroutines; the adapter's are plain functions, so this wiring is for the
    blocking consumer only. *)
Definition rabbitmq_effects (a : Application)
  : @SideEffects (Host C U) Json Request :=
  {| on_pull request timeout :=
       on_adapter
         (Protocols.pull RabbitMQSubscriber.as_PubSubSubscriber request timeout);
     on_loads s := on_app (app_loads a s);
     on_request_model message_data := on_app (app_request_model a message_data);
     on_handle request := on_app (app_handle a request);
     on_acknowledge request :=
       on_adapter
         (Protocols.acknowledge RabbitMQSubscriber.as_PubSubSubscriber request) |}.

(** The adapter and the application's view of a host heap. *)
Definition adapter_of (h : Heap (Mock (Host C U) Json Request))
  : RabbitMQSubscriber.t C :=
  adapter (wrapped (world h)).

Definition app_of (h : Heap (Mock (Host C U) Json Request)) : Heap U :=
  {| _running := _running h; world := app (wrapped (world h)) |}.

(** [process_one_message] of the blocking consumer in this wiring. *)
Definition wired_process_one_message (a : Application) (subscription : string)
  : M (Heap (Mock (Host C U) Json Request)) unit :=
  MessageConsumer.process_one_message (mock_json (rabbitmq_effects a))
    (consumer (rabbitmq_effects a) subscription).
End wiring.
Arguments Application U Json Request : clear implicits.

(** An application for examples: payloads are decoded and validated to
    themselves, and the handler stops the consumer. *)
Definition example_application : Application unit bytes bytes := {|
  app_loads s := ret s;
  app_request_model message_data := ret message_data;
  app_handle _ := fun h => (Return tt, {| _running := false; world := world h |});
|}.

(** An application whose handler raises. *)
Definition failing_application : Application unit bytes bytes := {|
  app_loads s := ret s;
  app_request_model message_data := ret message_data;
  app_handle _ := raise (Exception "RuntimeError" "");
|}.

(** A host heap around a recording channel that will yield [items]. *)
Definition example_host (items : list consumed)
  : Heap (Mock (Host (MockChannel (list consumed)) unit) bytes bytes) :=
  {| _running := true;
     world :=
       {| mock_calls := [];
          wrapped :=
            {| adapter := RabbitMQSubscriber.__init__ (mock_channel items);
               app := tt |} |} |}.

(** [start()] and [stop()] of the consumer built around the mocks, in either
    flavour. *)
Definition start {W Json Request : Type} (fx : @SideEffects W Json Request)
    (subscription : string) (v : variant)
  : M (Heap (Mock W Json Request)) unit :=
  match v with
  | blocking => MessageConsumer.start (consumer fx subscription)
  | suspending => AsyncMessageConsumer.start (async_consumer fx subscription)
  end.

Definition stop {W Json Request : Type} (fx : @SideEffects W Json Request)
    (subscription : string) (v : variant)
  : M (Heap (Mock W Json Request)) unit :=
  match v with
  | blocking => MessageConsumer.stop (consumer fx subscription)
  | suspending => AsyncMessageConsumer.stop (async_consumer fx subscription)
  end.

(** * Properties *)

(** ** Strings *)

Lemma append_nil_l (s : string) : "" +:+ s = s.
Proof. reflexivity. Qed.

Lemma append_cons (a : ascii) (s t : string) :
  String a s +:+ t = String a (s +:+ t).
Proof. reflexivity. Qed.

Lemma append_snoc (cur : string) (a : ascii) (s : string) :
  (cur +:+ String a "") +:+ s = cur +:+ String a s.
Proof.
  induction cur as [|b cur IH].
  - reflexivity.
  - rewrite !append_cons. by rewrite IH.
Qed.

Lemma append_nil_r (s : string) : s +:+ "" = s.
Proof.
  induction s as [|a s IH]; [reflexivity|].
  rewrite append_cons. by rewrite IH.
Qed.

Lemma chars_cons (a : ascii) (s : string) : chars (String a s) = a :: chars s.
Proof. reflexivity. Qed.

Lemma str_contains_chars (c : ascii) (s : string) :
  str_contains c s = true <-> c ∈ chars s.
Proof.
  induction s as [|a s IH].
  - simpl. split; [discriminate|]. unfold chars; simpl. by intros ?%elem_of_nil.
  - rewrite chars_cons, elem_of_cons. cbn [str_contains].
    destruct (decide (a = c)) as [->|Hne].
    + split; auto.
    + rewrite IH. split; [auto|]. intros [->|?]; [done|auto].
Qed.

Lemma str_contains_false (c : ascii) (s : string) :
  str_contains c s = false <-> c ∉ chars s.
Proof.
  rewrite <- str_contains_chars. destruct (str_contains c s); naive_solver.
Qed.

Lemma str_split_go_0 (sep : ascii) (cur s : string) :
  str_split_go sep 0 cur s = [cur +:+ s].
Proof. destruct s; simpl; [by rewrite append_nil_r | done]. Qed.

(** Splitting once cuts at the first separator. *)
Lemma str_split_go_first (sep : ascii) (before after cur : string) :
  sep ∉ chars before ->
  str_split_go sep 1 cur (before +:+ String sep after) = [cur +:+ before; after].
Proof.
  revert cur. induction before as [|a before IH]; intros cur Hnot.
  - rewrite append_nil_l, append_nil_r. simpl.
    rewrite decide_True by done. by rewrite str_split_go_0.
  - rewrite chars_cons, not_elem_of_cons in Hnot. destruct Hnot as [Hne Hnot].
    rewrite append_cons. simpl. rewrite decide_False by done.
    rewrite IH by done. by rewrite append_snoc.
Qed.

Lemma str_split_first (sep : ascii) (before after : string) :
  sep ∉ chars before ->
  str_split sep 1 (before +:+ String sep after) = [before; after].
Proof. intros Hnot. unfold str_split. by rewrite str_split_go_first. Qed.

(** A string that contains the separator has a first occurrence of it. *)
Lemma chars_first_occurrence (sep : ascii) (s : string) :
  sep ∈ chars s ->
  exists before after, s = before +:+ String sep after /\ sep ∉ chars before.
Proof.
  induction s as [|a s IH].
  - unfold chars; simpl. by intros ?%elem_of_nil.
  - rewrite chars_cons, elem_of_cons. destruct (decide (a = sep)) as [->|Hne].
    + intros _. exists "", s. split; [done|]. unfold chars; simpl. apply not_elem_of_nil.
    + intros [->|Hin]; [done|]. destruct (IH Hin) as (before & after & -> & Hnot).
      exists (String a before), after. split; [done|].
      rewrite chars_cons, not_elem_of_cons. split; [congruence | done].
Qed.

Lemma chars_app_sep (sep : ascii) (before after : string) :
  sep ∈ chars (before +:+ String sep after).
Proof.
  induction before as [|a before IH].
  - rewrite append_nil_l, chars_cons. rewrite elem_of_cons; by left.
  - rewrite append_cons, chars_cons. rewrite elem_of_cons; by right.
Qed.

(** ** RabbitMQPublisher.publish *)

Section publisher_properties.
Context {C : Type} `{!BlockingChannel C}.
Implicit Types self : RabbitMQPublisher.t (MockChannel C).

Lemma publish_exchange {Any} exchange routing_key data
    (kwargs : gmap string Any) self :
  ":"%char ∉ chars exchange ->
  RabbitMQPublisher.publish (exchange +:+ ":" +:+ routing_key) data kwargs self
  = publish_to exchange routing_key data self.
Proof.
  intros Hnot. unfold RabbitMQPublisher.publish, publish_to.
  assert (str_contains ":" (exchange +:+ ":" +:+ routing_key) = true) as ->.
  { apply str_contains_chars. apply chars_app_sep. }
  change (exchange +:+ ":" +:+ routing_key)
    with (exchange +:+ String ":" routing_key).
  rewrite str_split_first by done. reflexivity.
Qed.

Lemma publish_queue {Any} topic data (kwargs : gmap string Any) self :
  ":"%char ∉ chars topic ->
  RabbitMQPublisher.publish topic data kwargs self
  = publish_to "" topic data self.
Proof.
  intros Hnot%str_contains_false.
  unfold RabbitMQPublisher.publish, publish_to. rewrite Hnot. reflexivity.
Qed.

Lemma publish_to_calls exchange routing_key data self :
  method_calls (RabbitMQPublisher._channel
                  (publish_to exchange routing_key data self).2)
  = method_calls (RabbitMQPublisher._channel self)
      ++ [call_basic_publish exchange routing_key data persistent].
Proof.
  unfold publish_to, bind, RabbitMQPublisher.on_channel. simpl.
  unfold forwarded.
  destruct (basic_publish _ _ _ _ _) as [[?|e] w]; reflexivity.
Qed.

(** Every topic is parsed one way or the other. *)
Lemma publish_parsed {Any} topic data (kwargs : gmap string Any) self :
  exists exchange routing_key,
    RabbitMQPublisher.publish topic data kwargs self
    = publish_to exchange routing_key data self.
Proof.
  destruct (decide (":"%char ∈ chars topic)) as [Hin|Hnot].
  - destruct (chars_first_occurrence _ _ Hin) as (ex & rk & -> & Hnot).
    exists ex, rk. by apply (publish_exchange ex rk).
  - exists "", topic. by apply publish_queue.
Qed.
End publisher_properties.

(** C7. Topic addressing of [publish]: a topic [exchange:routing_key], cut at
    its first [:], is published through [exchange] with [routing_key]; a
    topic without [:] is published through the default exchange (the empty
    name) with the topic as routing key, that is, to the queue of that name.
    Either way exactly one message is handed to the broker, and it is marked
    persistent ([delivery_mode] 2).  Every topic that contains a [:] has such a
    first cut. *)
Theorem publish_topic_addressing {C : Type} `{!BlockingChannel C} {Any : Type}
    (data : bytes) (kwargs : gmap string Any)
    (self : RabbitMQPublisher.t (MockChannel C)) :
  let published topic :=
    method_calls (RabbitMQPublisher._channel
                    (RabbitMQPublisher.publish topic data kwargs self).2) in
  (forall exchange routing_key,
     ":"%char ∉ chars exchange ->
     published (exchange +:+ ":" +:+ routing_key)
     = method_calls (RabbitMQPublisher._channel self)
         ++ [call_basic_publish exchange routing_key data
               {| headers := None; delivery_mode := Some 2%Z |}])
  /\ (forall topic,
     ":"%char ∉ chars topic ->
     published topic
     = method_calls (RabbitMQPublisher._channel self)
         ++ [call_basic_publish "" topic data
               {| headers := None; delivery_mode := Some 2%Z |}])
  /\ (forall topic,
     ":"%char ∈ chars topic ->
     exists exchange routing_key,
       topic = exchange +:+ ":" +:+ routing_key /\ ":"%char ∉ chars exchange).
Proof.
  intros published. subst published. repeat split.
  - intros exchange routing_key Hnot.
    rewrite (publish_exchange exchange routing_key) by done.
    apply publish_to_calls.
  - intros topic Hnot. rewrite publish_queue by done. apply publish_to_calls.
  - intros topic Hin. apply chars_first_occurrence in Hin.
    destruct Hin as (before & after & -> & Hnot). by exists before, after.
Qed.

Lemma publish_topic_addressing_witness :
  method_calls (RabbitMQPublisher._channel
    (RabbitMQPublisher.publish "ex:rk" [] (∅ : gmap string string)
       (RabbitMQPublisher.__init__ (mock_channel Closed))).2)
  = [call_basic_publish "ex" "rk" [] persistent]
  /\ method_calls (RabbitMQPublisher._channel
    (RabbitMQPublisher.publish "q" [] (∅ : gmap string string)
       (RabbitMQPublisher.__init__ (mock_channel Closed))).2)
  = [call_basic_publish "" "q" [] persistent]
  /\ exists exchange routing_key,
      "a:b:c" = exchange +:+ ":" +:+ routing_key /\ ":"%char ∉ chars exchange.
Proof.
  pose proof (publish_topic_addressing (C := closed_channel) [] (∅ : gmap string string)
                (RabbitMQPublisher.__init__ (mock_channel Closed)))
    as (Hexchange & Hqueue & Hcut).
  split; [|split].
  - apply (Hexchange "ex" "rk"). compute_done.
  - apply (Hqueue "q"). compute_done.
  - apply (Hcut "a:b:c"). compute_done.
Defined.

(** C9. [publish] ignores its keyword arguments: whatever attributes are
    passed, of whatever type, or none at all, the same single call reaches
    the broker and the same result and state come back; the message carries
    the persistent delivery mode and no headers. *)
Theorem publish_ignores_attributes {C : Type} `{!BlockingChannel C}
    {Any Any' : Type} (topic : string) (data : bytes)
    (kwargs : gmap string Any) (kwargs' : gmap string Any')
    (self : RabbitMQPublisher.t (MockChannel C)) :
  RabbitMQPublisher.publish topic data kwargs self
  = RabbitMQPublisher.publish topic data kwargs' self
  /\ RabbitMQPublisher.publish topic data kwargs self
     = RabbitMQPublisher.publish topic data (∅ : gmap string Any) self
  /\ exists exchange routing_key,
      method_calls (RabbitMQPublisher._channel
                      (RabbitMQPublisher.publish topic data kwargs self).2)
      = method_calls (RabbitMQPublisher._channel self)
          ++ [call_basic_publish exchange routing_key data
                {| headers := None; delivery_mode := Some 2%Z |}].
Proof.
  split; [reflexivity|]. split; [reflexivity|].
  destruct (publish_parsed topic data kwargs self) as (exchange & routing_key & ->).
  exists exchange, routing_key. apply publish_to_calls.
Qed.

(** ** RabbitMQSubscriber *)

Section subscriber_properties.
Context {C : Type} `{!BlockingChannel C}.
Implicit Types self : RabbitMQSubscriber.t C.

Lemma subscriber_eta self :
  {| RabbitMQSubscriber._channel := RabbitMQSubscriber._channel self;
     RabbitMQSubscriber._pending_acks := RabbitMQSubscriber._pending_acks self |}
  = self.
Proof. by destruct self. Qed.

(** One turn of the loop of [acknowledge]. *)
Lemma acknowledge_loop_cons ack_id ack_ids self :
  RabbitMQSubscriber.acknowledge_loop (ack_id :: ack_ids) self
  = let popped :=
      delete ack_id (RabbitMQSubscriber._pending_acks self) in
    match RabbitMQSubscriber._pending_acks self !! ack_id with
    | Some tag =>
        match basic_ack tag (RabbitMQSubscriber._channel self) with
        | (Return _, c) =>
            RabbitMQSubscriber.acknowledge_loop ack_ids
              {| RabbitMQSubscriber._channel := c;
                 RabbitMQSubscriber._pending_acks := popped |}
        | (Raise e, c) =>
            (Raise e,
             {| RabbitMQSubscriber._channel := c;
                RabbitMQSubscriber._pending_acks := popped |})
        end
    | None =>
        RabbitMQSubscriber.acknowledge_loop ack_ids
          {| RabbitMQSubscriber._channel := RabbitMQSubscriber._channel self;
             RabbitMQSubscriber._pending_acks := popped |}
    end.
Proof.
  cbn [RabbitMQSubscriber.acknowledge_loop].
  unfold bind, RabbitMQSubscriber.pending_acks_pop, RabbitMQSubscriber.on_channel.
  cbn. destruct (RabbitMQSubscriber._pending_acks self !! ack_id) as [tag|]; [|done].
  cbn. by destruct (basic_ack tag _) as [[?|e] c].
Qed.

(** [acknowledge] leaves a subscriber alone when none of the ids is in the
    table: nothing is called on the channel. *)
Lemma acknowledge_loop_unknown ack_ids self :
  (forall ack_id, ack_id ∈ ack_ids ->
     RabbitMQSubscriber._pending_acks self !! ack_id = None) ->
  RabbitMQSubscriber.acknowledge_loop ack_ids self = (Return tt, self).
Proof.
  induction ack_ids as [|ack_id ack_ids IH]; intros Hunknown; [done|].
  rewrite acknowledge_loop_cons. cbn zeta.
  rewrite Hunknown by (rewrite elem_of_cons; by left).
  rewrite delete_id by (apply Hunknown; rewrite elem_of_cons; by left).
  rewrite subscriber_eta.
  apply IH. intros id Hid. apply Hunknown. rewrite elem_of_cons. by right.
Qed.

(** Whatever the channel does, [acknowledge] removes the ids it got to, a
    prefix of the request, and all of them when it returns normally; it
    touches no other entry. *)
Lemma acknowledge_loop_pending ack_ids self :
  exists processed rest,
    ack_ids = processed ++ rest
    /\ (forall k,
          RabbitMQSubscriber._pending_acks
            (RabbitMQSubscriber.acknowledge_loop ack_ids self).2 !! k
          = if decide (k ∈ processed) then None
            else RabbitMQSubscriber._pending_acks self !! k)
    /\ (forall u, (RabbitMQSubscriber.acknowledge_loop ack_ids self).1 = Return u ->
          rest = []).
Proof.
  revert self. induction ack_ids as [|ack_id ack_ids IH]; intros self.
  { exists [], []. split; [done|]. split; [|done]. intros k.
    destruct (decide (k ∈ [])) as [Hin|_]; [|done]. by apply elem_of_nil in Hin. }
  rewrite acknowledge_loop_cons. cbn zeta.
  assert (forall self2 : RabbitMQSubscriber.t C,
            RabbitMQSubscriber._pending_acks self2
            = delete ack_id (RabbitMQSubscriber._pending_acks self) ->
            exists processed rest,
              ack_id :: ack_ids = processed ++ rest
              /\ (forall k,
                    RabbitMQSubscriber._pending_acks
                      (RabbitMQSubscriber.acknowledge_loop ack_ids self2).2 !! k
                    = if decide (k ∈ processed) then None
                      else RabbitMQSubscriber._pending_acks self !! k)
              /\ (forall u,
                    (RabbitMQSubscriber.acknowledge_loop ack_ids self2).1 = Return u ->
                    rest = [])) as Hcontinue.
  { intros self2 Hself2. destruct (IH self2) as (processed & rest & -> & Hk & Hrest).
    exists (ack_id :: processed), rest. split; [done|]. split; [|done].
    intros k. rewrite Hk, Hself2, lookup_delete.
    destruct (decide (k ∈ processed)) as [Hin|Hnotin].
    - rewrite decide_True; [done|]. rewrite elem_of_cons. by right.
    - destruct (decide (ack_id = k)) as [->|Hne].
      + rewrite decide_True; [done|]. rewrite elem_of_cons. by left.
      + rewrite decide_False; [done|]. rewrite elem_of_cons. intros [?|?]; congruence. }
  destruct (RabbitMQSubscriber._pending_acks self !! ack_id) as [tag|] eqn:Hlookup.
  - destruct (basic_ack tag (RabbitMQSubscriber._channel self)) as [[[]|e] c] eqn:Hack.
    + apply Hcontinue. reflexivity.
    + cbn. exists [ack_id], ack_ids. split; [done|]. split; [|done].
      intros k. rewrite lookup_delete.
      destruct (decide (ack_id = k)) as [->|Hne].
      * rewrite decide_True; [done|]. by apply list_elem_of_singleton.
      * rewrite decide_False; [done|]. rewrite list_elem_of_singleton. congruence.
  - apply Hcontinue. reflexivity.
Qed.


(** After [acknowledge] returned normally none of its ids is in the table. *)
Lemma acknowledge_loop_removed ack_ids self u self' :
  RabbitMQSubscriber.acknowledge_loop ack_ids self = (Return u, self') ->
  forall ack_id, ack_id ∈ ack_ids ->
    RabbitMQSubscriber._pending_acks self' !! ack_id = None.
Proof.
  intros Hrun ack_id Hin.
  destruct (acknowledge_loop_pending ack_ids self) as (processed & rest & -> & Hk & Hrest).
  rewrite Hrun in Hk, Hrest. cbn in Hk, Hrest.
  rewrite (Hrest u eq_refl), app_nil_r in Hin.
  rewrite Hk. by rewrite decide_True.
Qed.

(** What [pull] does, by what the channel answers. *)
Lemma pull_run request timeout self :
  RabbitMQSubscriber.pull request timeout self
  = match consume (PullRequest.subscription request) false timeout
            (RabbitMQSubscriber._channel self) with
    | (Raise e, c1) =>
        (Raise e,
         {| RabbitMQSubscriber._channel := c1;
            RabbitMQSubscriber._pending_acks :=
              RabbitMQSubscriber._pending_acks self |})
    | (Return items, c1) =>
        let received :=
          match items with
          | Some (method, _, body) :: _ =>
              [ {| message := {| data := body |};
                   ack_id := str (delivery_tag method) |} ]
          | _ => []
          end in
        let pending :=
          match items with
          | Some (method, _, _) :: _ =>
              <[str (delivery_tag method) := delivery_tag method]>
                (RabbitMQSubscriber._pending_acks self)
          | _ => RabbitMQSubscriber._pending_acks self
          end in
        match cancel c1 with
        | (Return _, c2) =>
            (Return {| received_messages := received |},
             {| RabbitMQSubscriber._channel := c2;
                RabbitMQSubscriber._pending_acks := pending |})
        | (Raise e, c2) =>
            (Raise e,
             {| RabbitMQSubscriber._channel := c2;
                RabbitMQSubscriber._pending_acks := pending |})
        end
    end.
Proof.
  unfold RabbitMQSubscriber.pull, RabbitMQSubscriber.pull_loop, bind, ret,
    RabbitMQSubscriber.on_channel, RabbitMQSubscriber.pending_acks_setitem.
  destruct (consume _ _ _ _) as [[items|e] c1]; [|done].
  destruct items as [|[[[method properties] body]|] items];
    cbn; destruct (cancel c1) as [[n|e] c2]; reflexivity.
Qed.
End subscriber_properties.

Section recorded_subscriber_properties.
Context {C : Type} `{!BlockingChannel C}.
Implicit Types self : RabbitMQSubscriber.t (MockChannel C).

(** On a channel whose [basic_ack] returns normally, [acknowledge] issues
    one [basic_ack] for each distinct id of the request that is in the
    table, with the delivery tag the table holds for it, and no other
    call. *)
Lemma acknowledge_loop_reliable ack_ids self :
  (forall tag (c : C), (basic_ack tag c).1 = Return tt) ->
  exists acked : list (string * Z),
    NoDup acked.*1
    /\ (forall ack_id tag,
          (ack_id, tag) ∈ acked
          <-> ack_id ∈ ack_ids
              /\ RabbitMQSubscriber._pending_acks self !! ack_id = Some tag)
    /\ (RabbitMQSubscriber.acknowledge_loop ack_ids self).1 = Return tt
    /\ method_calls (RabbitMQSubscriber._channel
                       (RabbitMQSubscriber.acknowledge_loop ack_ids self).2)
       = method_calls (RabbitMQSubscriber._channel self)
           ++ ((fun p => call_basic_ack p.2) <$> acked).
Proof.
  intros Hreliable. revert self.
  induction ack_ids as [|ack_id ack_ids IH]; intros self.
  { exists []. split; [constructor|]. split.
    - intros id tag. rewrite !elem_of_nil. tauto.
    - split; [done|]. cbn. by rewrite app_nil_r. }
  rewrite acknowledge_loop_cons. cbn zeta.
  destruct (RabbitMQSubscriber._pending_acks self !! ack_id) as [tag|] eqn:Hlookup.
  - cbn [basic_ack MockChannel_BlockingChannel]. unfold forwarded.
    pose proof (Hreliable tag (wraps (RabbitMQSubscriber._channel self))) as Hack.
    destruct (basic_ack tag (wraps (RabbitMQSubscriber._channel self)))
      as [[[]|e] w]; [clear Hack|discriminate].
    match goal with
    | |- context [RabbitMQSubscriber.acknowledge_loop ack_ids ?s] =>
        destruct (IH s) as (acked & Hnodup & Hacked & Hret & Hcalls)
    end.
    cbn in Hacked, Hcalls.
    exists ((ack_id, tag) :: acked). split; [|split; [|split]].
    + cbn. constructor; [|done]. intros Hin.
      apply list_elem_of_fmap in Hin as ([id' tag'] & Hid & Hin). cbn in Hid. subst id'.
      apply Hacked in Hin as [_ Hin]. by rewrite lookup_delete_eq in Hin.
    + intros id' tag'. rewrite !elem_of_cons, Hacked. split.
      * intros [[= -> ->]|[Hin Hl]]; [auto|].
        apply lookup_delete_Some in Hl as [_ Hl]. auto.
      * intros [[->|Hin] Hl].
        -- left. congruence.
        -- destruct (decide (ack_id = id')) as [->|Hne].
           ++ left. congruence.
           ++ right. split; [done|]. by apply lookup_delete_Some.
    + done.
    + rewrite Hcalls. cbn. by rewrite <- app_assoc.
  - match goal with
    | |- context [RabbitMQSubscriber.acknowledge_loop ack_ids ?s] =>
        destruct (IH s) as (acked & Hnodup & Hacked & Hret & Hcalls)
    end.
    cbn in Hacked, Hcalls.
    exists acked. split; [done|]. split; [|done].
    intros id' tag'. rewrite Hacked, elem_of_cons. split.
    + intros [Hin Hl]. apply lookup_delete_Some in Hl as [_ Hl]. auto.
    + intros [[->|Hin] Hl]; [congruence|].
      split; [done|]. apply lookup_delete_Some. split; [congruence|done].
Qed.
End recorded_subscriber_properties.

(** C1. [acknowledge] is idempotent and never fails on an unknown id.
    (1) When none of the requested ids is in the correlation table, the call
    returns normally and leaves the subscriber as it was, its channel with
    its record of calls included: nothing reaches the broker.
    (2) On a channel whose [basic_ack] returns normally, the call returns
    normally, exactly one [basic_ack] is issued for each distinct requested id
    present in the table, with the delivery tag the table mapped it to, no
    other broker call is made, and precisely the requested ids are gone from
    the table.
    (3) After a call that returned normally none of its ids can be looked up,
    and the same request again is a no-op. *)
Theorem acknowledge_idempotent {C : Type} `{!BlockingChannel C}
    (request : AcknowledgeRequest.t)
    (self : RabbitMQSubscriber.t (MockChannel C)) :
  let table := RabbitMQSubscriber._pending_acks self in
  let ack_ids := AcknowledgeRequest.ack_ids request in
  ((forall ack_id, ack_id ∈ ack_ids -> table !! ack_id = None) ->
   RabbitMQSubscriber.acknowledge request self = (Return tt, self))
  /\ ((forall tag (c : C), (basic_ack tag c).1 = Return tt) ->
      exists acked : list (string * Z),
        NoDup acked.*1
        /\ (forall ack_id tag,
              (ack_id, tag) ∈ acked
              <-> ack_id ∈ ack_ids /\ table !! ack_id = Some tag)
        /\ (RabbitMQSubscriber.acknowledge request self).1 = Return tt
        /\ method_calls (RabbitMQSubscriber._channel
                           (RabbitMQSubscriber.acknowledge request self).2)
           = method_calls (RabbitMQSubscriber._channel self)
               ++ ((fun p => call_basic_ack p.2) <$> acked)
        /\ (forall k,
              RabbitMQSubscriber._pending_acks
                (RabbitMQSubscriber.acknowledge request self).2 !! k
              = if decide (k ∈ ack_ids) then None else table !! k))
  /\ (forall self',
        RabbitMQSubscriber.acknowledge request self = (Return tt, self') ->
        (forall ack_id, ack_id ∈ ack_ids ->
           RabbitMQSubscriber._pending_acks self' !! ack_id = None)
        /\ RabbitMQSubscriber.acknowledge request self' = (Return tt, self')).
Proof.
  intros table ack_ids. subst table ack_ids.
  unfold RabbitMQSubscriber.acknowledge. split; [|split].
  - apply acknowledge_loop_unknown.
  - intros Hreliable.
    destruct (acknowledge_loop_reliable (AcknowledgeRequest.ack_ids request) self Hreliable)
      as (acked & Hnodup & Hacked & Hret & Hcalls).
    exists acked. repeat (split; [done|]).
    destruct (acknowledge_loop_pending (AcknowledgeRequest.ack_ids request) self)
      as (processed & rest & Hids & Hk & Hrest).
    rewrite (Hrest tt Hret), app_nil_r in Hids. by subst processed.
  - intros self' Hrun.
    pose proof (acknowledge_loop_removed _ _ _ _ Hrun) as Hgone.
    split; [done|]. by apply acknowledge_loop_unknown.
Qed.

Lemma acknowledge_idempotent_witness :
  let self : RabbitMQSubscriber.t (MockChannel (list consumed)) :=
    {| RabbitMQSubscriber._channel := mock_channel [];
       RabbitMQSubscriber._pending_acks := {[ "7" := 7%Z ]} |} in
  RabbitMQSubscriber.acknowledge
    {| AcknowledgeRequest.subscription := "q";
       AcknowledgeRequest.ack_ids := ["8"; "9"] |} self
  = (Return tt, self)
  /\ (exists self',
        RabbitMQSubscriber.acknowledge
          {| AcknowledgeRequest.subscription := "q";
             AcknowledgeRequest.ack_ids := ["7"; "8"; "7"] |} self
        = (Return tt, self')
        /\ method_calls (RabbitMQSubscriber._channel self') = [call_basic_ack 7]
        /\ RabbitMQSubscriber._pending_acks self' !! "7" = None
        /\ RabbitMQSubscriber.acknowledge
             {| AcknowledgeRequest.subscription := "q";
                AcknowledgeRequest.ack_ids := ["7"; "8"; "7"] |} self'
           = (Return tt, self')).
Proof.
  intros self. split.
  - apply (proj1 (acknowledge_idempotent
                    {| AcknowledgeRequest.subscription := "q";
                       AcknowledgeRequest.ack_ids := ["8"; "9"] |} self)).
    intros ack_id Hin. cbn in Hin.
    apply elem_of_cons in Hin as [->|Hin]; [done|].
    apply elem_of_cons in Hin as [->|Hin]; [done|].
    by apply elem_of_nil in Hin.
  - pose proof (acknowledge_idempotent
                  {| AcknowledgeRequest.subscription := "q";
                     AcknowledgeRequest.ack_ids := ["7"; "8"; "7"] |} self)
      as (_ & Hknown & Hagain).
    destruct (Hknown (fun _ _ => eq_refl)) as (acked & _ & _ & Hret & _ & _).
    destruct (RabbitMQSubscriber.acknowledge _ self) as [o self'] eqn:Hrun.
    cbn in Hret. subst o. exists self'.
    destruct (Hagain self' eq_refl) as [Hgone Hnoop].
    split; [done|]. split; [|split].
    + by injection Hrun as <-.
    + apply Hgone. cbn. rewrite elem_of_cons. by left.
    + done.
Defined.

(** C6. [pull] surfaces at most one message, whatever [max_messages] asks
    for, and a timeout is an empty success.
    (1) A response that [pull] returns holds at most one message.
    (2) [max_messages] is not read: changing it changes nothing.
    (3) When the consume generator yields no delivery first (it yields the
    timeout marker, or nothing at all) and [cancel] returns normally, [pull]
    returns the empty response and leaves the correlation table alone.
    (4) [pull] raises only what [consume] or [cancel] raised. *)
Theorem pull_at_most_one {C : Type} `{!BlockingChannel C}
    (request : PullRequest.t) (timeout : Z) (self : RabbitMQSubscriber.t C) :
  let queue := PullRequest.subscription request in
  let channel := RabbitMQSubscriber._channel self in
  (forall response self',
     RabbitMQSubscriber.pull request timeout self = (Return response, self') ->
     length (received_messages response) <= 1)
  /\ (forall n,
     RabbitMQSubscriber.pull
       {| PullRequest.subscription := queue; PullRequest.max_messages := n |}
       timeout self
     = RabbitMQSubscriber.pull request timeout self)
  /\ (forall items c1 requeued c2,
     consume queue false timeout channel = (Return items, c1) ->
     (forall delivery, head items <> Some (Some delivery)) ->
     cancel c1 = (Return requeued, c2) ->
     RabbitMQSubscriber.pull request timeout self
     = (Return {| received_messages := [] |},
        {| RabbitMQSubscriber._channel := c2;
           RabbitMQSubscriber._pending_acks :=
             RabbitMQSubscriber._pending_acks self |}))
  /\ (forall e self',
     RabbitMQSubscriber.pull request timeout self = (Raise e, self') ->
     (consume queue false timeout channel).1 = Raise e
     \/ exists items c1,
          consume queue false timeout channel = (Return items, c1)
          /\ (cancel c1).1 = Raise e).
Proof.
  intros queue channel. subst queue channel. split; [|split; [|split]].
  - intros response self'. rewrite pull_run.
    destruct (consume _ _ _ _) as [[items|e] c1]; [|done].
    cbn zeta. destruct (cancel c1) as [[n|e] c2]; [|done].
    intros Heq. simplify_eq/=.
    destruct items as [|[[[method properties] body]|] items]; cbn; lia.
  - intros n. reflexivity.
  - intros items c1 requeued c2 Hconsume Hnone Hcancel.
    rewrite pull_run, Hconsume. cbn zeta. rewrite Hcancel.
    destruct items as [|[[[method properties] body]|] items]; try done.
    by destruct (Hnone (method, properties, body)).
  - intros e self'. rewrite pull_run.
    destruct (consume _ _ _ _) as [[items|e'] c1].
    + cbn zeta. destruct (cancel c1) as [[n|e''] c2] eqn:Hcancel; [done|].
      intros Heq. simplify_eq/=. right. exists items, c1. by rewrite Hcancel.
    + intros Heq. simplify_eq/=. by left.
Qed.

Lemma pull_at_most_one_witness :
  let self : RabbitMQSubscriber.t (list consumed) :=
    RabbitMQSubscriber.__init__ [None] in
  RabbitMQSubscriber.pull
    {| PullRequest.subscription := "q"; PullRequest.max_messages := 10 |} 30 self
  = (Return {| received_messages := [] |},
     {| RabbitMQSubscriber._channel := [];
        RabbitMQSubscriber._pending_acks := ∅ |})
  /\ forall delivery : Deliver * BasicProperties * bytes,
       head [None (A := Deliver * BasicProperties * bytes)] <> Some (Some delivery).
Proof.
  intros self.
  assert (forall delivery : Deliver * BasicProperties * bytes,
            head [None (A := Deliver * BasicProperties * bytes)]
            <> Some (Some delivery)) as Hnone by (intros delivery; discriminate).
  split; [|exact Hnone].
  apply (proj1 (proj2 (proj2 (pull_at_most_one
           {| PullRequest.subscription := "q"; PullRequest.max_messages := 10 |}
           30 self))) [None] [] 0%Z []); [reflexivity | exact Hnone | reflexivity].
Defined.

(** ** The correlation table along a history *)

Section history_properties.
Context {C : Type} `{!BlockingChannel C}.
Implicit Types self : RabbitMQSubscriber.t C.
Implicit Types unacked : list (option Z * ReceivedMessage).





Lemma covered_app table unacked more dropped dropped' :
  covered table unacked dropped ->
  covered table (unacked ++ more) (dropped ++ dropped').
Proof.
  intros Hcovered k Hk.
  destruct (Hcovered k Hk) as [(handle & m & Hm & Hid)|(tag & Hid & Htag)].
  - left. exists handle, m. split; [|done]. apply elem_of_app. by left.
  - right. exists tag. split; [done|]. apply elem_of_app. by left.
Qed.

Lemma from_broker_app table handles more :
  from_broker table handles -> from_broker table (handles ++ more).
Proof. intros Hfrom k v Hl. apply elem_of_app. left. by eapply Hfrom. Qed.



End history_properties.




(** ** The consumer loop *)

Section consumer_properties.
Context {W Json Request : Type}.
Variable fx : @SideEffects W Json Request.
Variable subscription : string.
Implicit Types h : Heap (Mock W Json Request).

Lemma unwrapped_recorded c h (h' : Heap W) : unwrapped (recorded c h h') = h'.
Proof. by destruct h'. Qed.

Lemma calls_recorded c h (h' : Heap W) : calls (recorded c h h') = calls h ++ [c].
Proof. reflexivity. Qed.

(** The [async] consumer does what the blocking one does. *)
Lemma process_one_message_variant v h :
  process_one_message fx subscription v h
  = process_one_message fx subscription blocking h.
Proof. by destruct v. Qed.

Lemma run_variant v fuel h :
  run fx subscription v fuel h = run fx subscription blocking fuel h.
Proof.
  destruct v; [done|]. unfold run. revert h.
  induction fuel as [|fuel IH]; intros h; [done|].
  cbn [AsyncMessageConsumer.run MessageConsumer.run].
  destruct (_running h); [|done].
  unfold AsyncMessageConsumer.await at 1.
  change (AsyncMessageConsumer.process_one_message (mock_json fx)
            (async_consumer fx subscription) h)
    with (MessageConsumer.process_one_message (mock_json fx)
            (consumer fx subscription) h).
  destruct (MessageConsumer.process_one_message _ _ h) as [[[]|e] h']; [|done].
  apply IH.
Qed.

(** One turn of the loop. *)
Lemma run_S v fuel h :
  run fx subscription v (S fuel) h
  = if _running h then
      match process_one_message fx subscription v h with
      | (Return _, h') => run fx subscription v fuel h'
      | (Raise e, h') => Some (Raise e, h')
      end
    else Some (Return tt, h).
Proof.
  rewrite !run_variant, process_one_message_variant.
  cbn. destruct (_running h); [|done].
  destruct (MessageConsumer.process_one_message _ _ h) as [[[]|e] h']; [|done].
  by rewrite (run_variant v).
Qed.

(** What [process_one_message] does, by what the collaborators answer. *)
Lemma process_one_message_run v h :
  process_one_message fx subscription v h
  = let pull_call := call_pull (pull_request subscription) 30 in
    match on_pull fx (pull_request subscription) 30 (unwrapped h) with
    | (Raise e, h1) => (Raise e, recorded pull_call h h1)
    | (Return response, h1) =>
        let hp := recorded pull_call h h1 in
        match received_messages response with
        | [] => (Return tt, hp)
        | m :: _ =>
            let loads_call := call_loads (data (message m)) in
            match on_loads fx (data (message m)) h1 with
            | (Raise e, h2) => (Raise e, recorded loads_call hp h2)
            | (Return message_data, h2) =>
                let hl := recorded loads_call hp h2 in
                let model_call := call_request_model message_data in
                match on_request_model fx message_data h2 with
                | (Raise e, h3) => (Raise e, recorded model_call hl h3)
                | (Return request, h3) =>
                    let hm := recorded model_call hl h3 in
                    match on_handle fx request h3 with
                    | (Raise e, h4) =>
                        (Raise e, recorded (call_handle request) hm h4)
                    | (Return _, h4) =>
                        let hh := recorded (call_handle request) hm h4 in
                        match on_acknowledge fx
                                (acknowledge_request subscription m) h4 with
                        | (o, h5) =>
                            (o, recorded
                                  (call_acknowledge
                                     (acknowledge_request subscription m))
                                  hh h5)
                        end
                    end
                end
            end
        end
    end.
Proof.
  rewrite process_one_message_variant. cbn zeta.
  unfold process_one_message, MessageConsumer.process_one_message.
  cbn [MessageConsumer.subscriber MessageConsumer.handler
       MessageConsumer.request_model MessageConsumer.subscription consumer
       Protocols.pull Protocols.acknowledge Protocols.handle
       mock_subscriber mock_handler mock_json loads].
  unfold mock_request_model, bind, recording, ret.
  fold (pull_request subscription).
  destruct (on_pull fx _ _ _) as [[response|e] h1]; [|done].
  destruct (received_messages response) as [|m rest]; [done|].
  fold (acknowledge_request subscription m).
  rewrite unwrapped_recorded.
  destruct (on_loads fx _ h1) as [[message_data|e] h2]; [|done].
  rewrite unwrapped_recorded.
  destruct (on_request_model fx _ h2) as [[request|e] h3]; [|done].
  rewrite unwrapped_recorded.
  destruct (on_handle fx _ h3) as [[[]|e] h4]; [|done].
  rewrite unwrapped_recorded.
  by destruct (on_acknowledge fx _ h4) as [o h5].
Qed.
End consumer_properties.

Section consumer_loop_properties.
Context {W Json Request : Type}.
Variable fx : @SideEffects W Json Request.
Variable subscription : string.
Implicit Types h : Heap (Mock W Json Request).

Lemma pulls_app (l l' : list (consumer_call Json Request)) :
  pulls (l ++ l') = pulls l + pulls l'.
Proof. unfold pulls. by rewrite List.filter_app, length_app. Qed.

Local Ltac count_pulls :=
  cbn [snd]; rewrite !calls_recorded, !pulls_app; cbn; lia.

(** Every [process_one_message] makes exactly one pull. *)
Lemma process_one_message_pulls v h :
  pulls (calls (process_one_message fx subscription v h).2) = S (pulls (calls h)).
Proof.
  rewrite process_one_message_run. cbn zeta.
  destruct (on_pull fx _ _ _) as [[response|e] h1]; [|count_pulls].
  destruct (received_messages response) as [|m rest]; [count_pulls|].
  destruct (on_loads fx _ h1) as [[message_data|e] h2]; [|count_pulls].
  destruct (on_request_model fx _ h2) as [[request|e] h3]; [|count_pulls].
  destruct (on_handle fx _ h3) as [[[]|e] h4]; [|count_pulls].
  destruct (on_acknowledge fx _ h4) as [o h5]. count_pulls.
Qed.

Lemma iterations_pulls v k h h' :
  iterations fx subscription v k h = Some h' ->
  pulls (calls h') = pulls (calls h) + k.
Proof.
  revert h. induction k as [|k IH]; intros h; cbn [iterations].
  - intros [= <-]. lia.
  - destruct (_running h); [|done].
    pose proof (process_one_message_pulls v h) as Hpulls.
    destruct (process_one_message fx subscription v h) as [[[]|e] h1]; [|done].
    intros Hk%IH. cbn in Hpulls. lia.
Qed.

(** The loop returns normally exactly when, after some number of whole
    iterations, it finds the flag cleared. *)
Lemma run_returns v fuel h h' :
  run fx subscription v fuel h = Some (Return tt, h')
  <-> exists k, k < fuel /\ iterations fx subscription v k h = Some h'
                /\ _running h' = false.
Proof.
  revert h. induction fuel as [|fuel IH]; intros h.
  { split; [by destruct v|]. intros (k & Hk & _). lia. }
  rewrite run_S. split.
  - destruct (_running h) eqn:Hrunning.
    + destruct (process_one_message fx subscription v h) as [[[]|e] h1] eqn:Hone;
        [|done].
      intros (k & Hk & Hiter & Hstop)%IH. exists (S k). split; [lia|].
      split; [|done]. cbn [iterations]. by rewrite Hrunning, Hone.
    + intros [= <-]. exists 0. split; [lia|]. by split.
  - intros ([|k] & Hk & Hiter & Hstop); cbn [iterations] in Hiter.
    + injection Hiter as ->. by rewrite Hstop.
    + destruct (_running h); [|done].
      destruct (process_one_message fx subscription v h) as [[[]|e] h1]; [|done].
      apply IH. exists k. split; [lia|]. by split.
Qed.

(** The loop raises exactly when, after some number of whole iterations, the
    flag is set and the next [process_one_message] raises. *)
Lemma run_raises v fuel h e h' :
  run fx subscription v fuel h = Some (Raise e, h')
  <-> exists k hk, k < fuel /\ iterations fx subscription v k h = Some hk
                   /\ _running hk = true
                   /\ process_one_message fx subscription v hk = (Raise e, h').
Proof.
  revert h. induction fuel as [|fuel IH]; intros h.
  { split; [by destruct v|]. intros (k & hk & Hk & _). lia. }
  rewrite run_S. split.
  - destruct (_running h) eqn:Hrunning; [|done].
    destruct (process_one_message fx subscription v h) as [[[]|e'] h1] eqn:Hone.
    + intros (k & hk & Hk & Hiter & Hgo & Hraise)%IH. exists (S k), hk.
      split; [lia|]. split; [|done]. cbn [iterations]. by rewrite Hrunning, Hone.
    + intros [= -> ->]. exists 0, h. split; [lia|]. by repeat split.
  - intros ([|k] & hk & Hk & Hiter & Hgo & Hraise); cbn [iterations] in Hiter.
    + injection Hiter as ->. by rewrite Hgo, Hraise.
    + destruct (_running h); [|done].
      destruct (process_one_message fx subscription v h) as [[[]|e'] h1]; [|done].
      apply IH. exists k, hk. split; [lia|]. by repeat split.
Qed.
(** The calls of one [process_one_message]: the pull, then, for the first
    message of a non-empty response only, the decoding, the validation, the
    handler call and the acknowledge, as far as it got. *)
Lemma process_one_message_shape v h :
  exists more,
    calls (process_one_message fx subscription v h).2
    = calls h ++ call_pull (pull_request subscription) 30 :: more
    /\ match on_pull fx (pull_request subscription) 30 (unwrapped h) with
       | (Return response, _) =>
           match received_messages response with
           | [] => more = []
           | m :: _ =>
               let loads_call := call_loads (data (message m)) in
               more = [loads_call]
               \/ (exists message_data,
                     more = [loads_call; call_request_model message_data])
               \/ (exists message_data request,
                     more = [loads_call; call_request_model message_data;
                             call_handle request])
               \/ (exists message_data request,
                     more = [loads_call; call_request_model message_data;
                             call_handle request;
                             call_acknowledge
                               (acknowledge_request subscription m)])
           end
       | (Raise _, _) => more = []
       end.
Proof.
  rewrite process_one_message_run. cbn zeta.
  destruct (on_pull fx _ _ _) as [[response|e] h1]; [|by exists []].
  destruct (received_messages response) as [|m rest]; [by exists []|].
  destruct (on_loads fx _ h1) as [[message_data|e] h2].
  2: { eexists. split; [cbn [snd]; rewrite !calls_recorded, <- !app_assoc; done|].
       by left. }
  destruct (on_request_model fx _ h2) as [[request|e] h3].
  2: { eexists. split; [cbn [snd]; rewrite !calls_recorded, <- !app_assoc; done|].
       right. left. by exists message_data. }
  destruct (on_handle fx _ h3) as [[[]|e] h4].
  2: { eexists. split; [cbn [snd]; rewrite !calls_recorded, <- !app_assoc; done|].
       right. right. left. by exists message_data, request. }
  destruct (on_acknowledge fx _ h4) as [o h5].
  eexists. split; [cbn [snd]; rewrite !calls_recorded, <- !app_assoc; done|].
  right. right. right. by exists message_data, request.
Qed.
End consumer_loop_properties.



(** C3. A failure to decode, to validate or to handle propagates and leaves
    the message unacknowledged.  Let the pull return at least one message, [m]
    being the first.  If decoding its payload raises [e], or decoding succeeds
    and validation raises [e], or both succeed and the handler raises [e],
    then [process_one_message] (blocking and [async]) raises [e]; the calls it
    made are the pull, the decoding, and the validation and the handler call
    when it got that far, each once and none of them an acknowledge; the heap
    is as the failing call left it; and a running loop raises [e] from that
    very iteration without pulling again. *)
Theorem process_one_message_propagates {W Json Request : Type}
    (fx : @SideEffects W Json Request) (subscription : string) (v : variant)
    (h : Heap (Mock W Json Request)) (response : PullResponse) (h1 : Heap W)
    (m : ReceivedMessage) (rest : list ReceivedMessage) (e : exn) :
  on_pull fx
    {| PullRequest.subscription := subscription; PullRequest.max_messages := 1 |}
    30 (unwrapped h)
  = (Return response, h1) ->
  received_messages response = m :: rest ->
  let pull_call :=
    call_pull {| PullRequest.subscription := subscription;
                 PullRequest.max_messages := 1 |} 30 in
  let loads_call := call_loads (data (message m)) in
  let propagated (made : list (consumer_call Json Request)) (left : Heap W) :=
    (process_one_message fx subscription v h).1 = Raise e
    /\ calls (process_one_message fx subscription v h).2 = calls h ++ made
    /\ unwrapped (process_one_message fx subscription v h).2 = left
    /\ (forall fuel,
          _running h = true ->
          run fx subscription v (S fuel) h
          = Some (Raise e, (process_one_message fx subscription v h).2)) in
  (forall h2,
     on_loads fx (data (message m)) h1 = (Raise e, h2) ->
     propagated [pull_call; loads_call] h2)
  /\ (forall message_data h2 h3,
     on_loads fx (data (message m)) h1 = (Return message_data, h2) ->
     on_request_model fx message_data h2 = (Raise e, h3) ->
     propagated [pull_call; loads_call; call_request_model message_data] h3)
  /\ (forall message_data h2 request h3 h4,
     on_loads fx (data (message m)) h1 = (Return message_data, h2) ->
     on_request_model fx message_data h2 = (Return request, h3) ->
     on_handle fx request h3 = (Raise e, h4) ->
     propagated
       [pull_call; loads_call; call_request_model message_data;
        call_handle request] h4).
Proof.
  intros Hpull Hfirst pull_call loads_call propagated.
  pose proof (process_one_message_run fx subscription v h) as Hrun.
  cbn zeta in Hrun. unfold pull_request in Hrun. rewrite Hpull, Hfirst in Hrun.
  assert (forall made left h',
            process_one_message fx subscription v h = (Raise e, h') ->
            calls h' = calls h ++ made -> unwrapped h' = left ->
            propagated made left) as Hpropagated.
  { intros made left h' Hone Hcalls Hleft. unfold propagated. rewrite Hone.
    split; [done|]. split; [done|]. split; [done|].
    intros fuel Hrunning. by rewrite run_S, Hrunning, Hone. }
  split; [|split].
  - intros h2 Hloads. rewrite Hloads in Hrun.
    eapply Hpropagated; [exact Hrun| |apply unwrapped_recorded].
    rewrite !calls_recorded. by rewrite <- !app_assoc.
  - intros message_data h2 h3 Hloads Hmodel. rewrite Hloads, Hmodel in Hrun.
    eapply Hpropagated; [exact Hrun| |apply unwrapped_recorded].
    rewrite !calls_recorded. by rewrite <- !app_assoc.
  - intros message_data h2 request h3 h4 Hloads Hmodel Hhandle.
    rewrite Hloads, Hmodel, Hhandle in Hrun.
    eapply Hpropagated; [exact Hrun| |apply unwrapped_recorded].
    rewrite !calls_recorded. by rewrite <- !app_assoc.
Qed.

Lemma process_one_message_propagates_witness :
  let pull_call :=
    call_pull {| PullRequest.subscription := "sub";
                 PullRequest.max_messages := 1 |} 30 in
  let heap_with payload :=
    example_heap true
      [ {| received_messages := [example_message payload "1"] |};
        {| received_messages := [] |} ] in
  let one payload :=
    process_one_message example_effects "sub" blocking (heap_with payload) in
  ((one [Byte.x00]).1 = Raise (Exception "JSONDecodeError" "")
   /\ calls (one [Byte.x00]).2 = [pull_call; call_loads [Byte.x00]]
   /\ run example_effects "sub" blocking 3 (heap_with [Byte.x00])
      = Some (Raise (Exception "JSONDecodeError" ""), (one [Byte.x00]).2))
  /\ ((one []).1 = Raise (Exception "ValidationError" "")
      /\ calls (one []).2 = [pull_call; call_loads []; call_request_model []])
  /\ ((one [Byte.x01]).1 = Raise (Exception "RuntimeError" "")
      /\ calls (one [Byte.x01]).2
         = [pull_call; call_loads [Byte.x01]; call_request_model [Byte.x01];
            call_handle [Byte.x01]]).
Proof.
  intros pull_call heap_with one.
  pose (rest := {| _running := true; world := [ {| received_messages := [] |} ] |}
                : Heap (list PullResponse)).
  split; [|split].
  - destruct (process_one_message_propagates example_effects "sub" blocking
                (heap_with [Byte.x00])
                {| received_messages := [example_message [Byte.x00] "1"] |}
                rest (example_message [Byte.x00] "1") []
                (Exception "JSONDecodeError" "") eq_refl eq_refl)
      as (Hdecode & _ & _).
    destruct (Hdecode rest eq_refl) as (Hraise & Hcalls & _ & Hloop).
    split; [exact Hraise|]. split; [exact Hcalls|]. exact (Hloop 2 eq_refl).
  - destruct (process_one_message_propagates example_effects "sub" blocking
                (heap_with [])
                {| received_messages := [example_message [] "1"] |}
                rest (example_message [] "1") []
                (Exception "ValidationError" "") eq_refl eq_refl)
      as (_ & Hvalidate & _).
    destruct (Hvalidate [] rest rest eq_refl eq_refl) as (Hraise & Hcalls & _).
    split; [exact Hraise | exact Hcalls].
  - destruct (process_one_message_propagates example_effects "sub" blocking
                (heap_with [Byte.x01])
                {| received_messages := [example_message [Byte.x01] "1"] |}
                rest (example_message [Byte.x01] "1") []
                (Exception "RuntimeError" "") eq_refl eq_refl)
      as (_ & _ & Hhandle).
    destruct (Hhandle [Byte.x01] rest [Byte.x01] rest rest eq_refl eq_refl eq_refl)
      as (Hraise & Hcalls & _).
    split; [exact Hraise | exact Hcalls].
Defined.

(** C4. Every [process_one_message] (blocking and [async]) pulls once, with
    [max_messages] 1 and the timeout 30, before anything else.  On the
    successful path (the pull returns at least one message, [m] being the
    first, decoding and validation return and the handler returns normally)
    the calls it makes are, in this order, the pull, the decoding, the
    validation, the handler call and one acknowledge whose request holds the
    consumer's subscription and the singleton list of [m]'s ack id; the
    outcome of [process_one_message] is that of the acknowledge. *)
Theorem process_one_message_acknowledges {W Json Request : Type}
    (fx : @SideEffects W Json Request) (subscription : string) (v : variant)
    (h : Heap (Mock W Json Request)) :
  let pull_call :=
    call_pull {| PullRequest.subscription := subscription;
                 PullRequest.max_messages := 1 |} 30 in
  (exists more,
     calls (process_one_message fx subscription v h).2
     = calls h ++ pull_call :: more
     /\ pulls more = 0)
  /\ (forall response h1 m rest message_data h2 request h3 h4 o h5,
     on_pull fx
       {| PullRequest.subscription := subscription;
          PullRequest.max_messages := 1 |} 30 (unwrapped h)
     = (Return response, h1) ->
     received_messages response = m :: rest ->
     on_loads fx (data (message m)) h1 = (Return message_data, h2) ->
     on_request_model fx message_data h2 = (Return request, h3) ->
     on_handle fx request h3 = (Return tt, h4) ->
     on_acknowledge fx
       {| AcknowledgeRequest.subscription := subscription;
          AcknowledgeRequest.ack_ids := [ack_id m] |} h4
     = (o, h5) ->
     (process_one_message fx subscription v h).1 = o
     /\ calls (process_one_message fx subscription v h).2
        = calls h
            ++ [pull_call; call_loads (data (message m));
                call_request_model message_data; call_handle request;
                call_acknowledge
                  {| AcknowledgeRequest.subscription := subscription;
                     AcknowledgeRequest.ack_ids := [ack_id m] |}]
     /\ unwrapped (process_one_message fx subscription v h).2 = h5).
Proof.
  intros pull_call.
  pose proof (process_one_message_run fx subscription v h) as Hrun.
  cbn zeta in Hrun. unfold pull_request, acknowledge_request in Hrun.
  fold pull_call in Hrun. split.
  - destruct (process_one_message_shape fx subscription v h) as (more & Hcalls & _).
    exists more. split; [exact Hcalls|].
    pose proof (process_one_message_pulls fx subscription v h) as Hcount.
    rewrite Hcalls in Hcount.
    change (call_pull (pull_request subscription) 30 :: more)
      with ([call_pull (pull_request subscription) 30] ++ more) in Hcount.
    rewrite !pulls_app in Hcount. cbn in Hcount. lia.
  - intros response h1 m rest message_data h2 request h3 h4 o h5
      Hpull Hfirst Hloads Hmodel Hhandle Hack.
    rewrite Hpull, Hfirst, Hloads, Hmodel, Hhandle, Hack in Hrun.
    rewrite Hrun. split; [done|]. split; [|apply unwrapped_recorded].
    cbn [snd]. rewrite !calls_recorded. by rewrite <- !app_assoc.
Qed.

Lemma process_one_message_acknowledges_witness :
  let m := example_message [Byte.x02] "7" in
  let h := example_heap true [ {| received_messages := [m] |} ] in
  (process_one_message example_effects "sub" suspending h).1 = Return tt
  /\ calls (process_one_message example_effects "sub" suspending h).2
     = [call_pull {| PullRequest.subscription := "sub";
                     PullRequest.max_messages := 1 |} 30;
        call_loads [Byte.x02]; call_request_model [Byte.x02];
        call_handle [Byte.x02];
        call_acknowledge {| AcknowledgeRequest.subscription := "sub";
                            AcknowledgeRequest.ack_ids := ["7"] |}].
Proof.
  intros m h.
  pose (stopped := {| _running := false; world := [] |} : Heap (list PullResponse)).
  destruct (process_one_message_acknowledges example_effects "sub" suspending h)
    as [_ Hsuccess].
  destruct (Hsuccess {| received_messages := [m] |} stopped m [] [Byte.x02]
              stopped [Byte.x02] stopped stopped (Return tt) stopped
              eq_refl eq_refl eq_refl eq_refl eq_refl eq_refl)
    as (Hret & Hcalls & _).
  split; [exact Hret | exact Hcalls].
Defined.

(** C10. Of a pull result with two or more messages only the first is
    processed.  The calls [process_one_message] (blocking and [async]) makes
    after the pull are, as far as it gets, the decoding of the first
    message's payload, one validation, one handler call and one acknowledge
    of the first message's ack id alone; and the whole result (outcome, heap
    and recorded calls) is what it would have been had the pull returned the
    first message alone. *)
Theorem process_one_message_first_only {W Json Request : Type}
    (fx : @SideEffects W Json Request) (subscription : string) (v : variant)
    (h : Heap (Mock W Json Request)) (response : PullResponse) (h1 : Heap W)
    (m m' : ReceivedMessage) (rest : list ReceivedMessage) :
  on_pull fx
    {| PullRequest.subscription := subscription; PullRequest.max_messages := 1 |}
    30 (unwrapped h)
  = (Return response, h1) ->
  received_messages response = m :: m' :: rest ->
  let pull_call :=
    call_pull {| PullRequest.subscription := subscription;
                 PullRequest.max_messages := 1 |} 30 in
  let loads_call := call_loads (data (message m)) in
  let acknowledge_call :=
    call_acknowledge {| AcknowledgeRequest.subscription := subscription;
                        AcknowledgeRequest.ack_ids := [ack_id m] |} in
  (exists more,
     calls (process_one_message fx subscription v h).2
     = calls h ++ pull_call :: more
     /\ (more = [loads_call]
         \/ (exists message_data,
               more = [loads_call; call_request_model message_data])
         \/ (exists message_data request,
               more = [loads_call; call_request_model message_data;
                       call_handle request])
         \/ (exists message_data request,
               more = [loads_call; call_request_model message_data;
                       call_handle request; acknowledge_call])))
  /\ process_one_message fx subscription v h
     = process_one_message
         (answering {| received_messages := [m] |} h1 fx) subscription v h.
Proof.
  intros Hpull Hfirst pull_call loads_call acknowledge_call. split.
  - destruct (process_one_message_shape fx subscription v h) as (more & Hcalls & Hmore).
    unfold pull_request in Hmore. rewrite Hpull, Hfirst in Hmore.
    exists more. split; [exact Hcalls | exact Hmore].
  - rewrite !process_one_message_run. cbn zeta.
    unfold pull_request. rewrite Hpull, Hfirst. reflexivity.
Qed.

Lemma process_one_message_first_only_witness :
  let first := example_message [Byte.x02] "7" in
  let second := example_message [Byte.x03] "8" in
  let h := example_heap true [ {| received_messages := [first; second] |} ] in
  calls (process_one_message example_effects "sub" blocking h).2
  = [call_pull {| PullRequest.subscription := "sub";
                  PullRequest.max_messages := 1 |} 30;
     call_loads [Byte.x02]; call_request_model [Byte.x02];
     call_handle [Byte.x02];
     call_acknowledge {| AcknowledgeRequest.subscription := "sub";
                         AcknowledgeRequest.ack_ids := ["7"] |}]
  /\ process_one_message example_effects "sub" blocking h
     = process_one_message
         (answering {| received_messages := [first] |}
            {| _running := false; world := [] |} example_effects)
         "sub" blocking h.
Proof.
  intros first second h.
  destruct (process_one_message_first_only example_effects "sub" blocking h
              {| received_messages := [first; second] |}
              {| _running := false; world := [] |} first second []
              eq_refl eq_refl)
    as [_ Hsame].
  split; [reflexivity | exact Hsame].
Defined.

(** C8. [run] iterates only while the flag is set.
    (1) Straight after [__init__] the flag is clear, for the blocking and
    for the [async] consumer, and [run] returns at once with the heap
    untouched: nothing is pulled.  The same holds from any heap whose flag is
    clear.
    (2) [run] returns normally exactly when some number [k] of whole
    iterations, each begun with the flag set and ended by
    [process_one_message] returning, leads to a heap whose flag is clear; it
    returns that heap.  Only the flag at those boundaries counts.
    (3) [k] whole iterations make exactly [k] pulls: [process_one_message]
    ran [k] times.
    (4) [run] raises exactly when, at such a boundary with the flag set,
    [process_one_message] raises. *)
Theorem run_while_running {W Json Request : Type}
    (fx : @SideEffects W Json Request) (subscription : string) (v : variant) :
  (forall h fuel,
     let created :=
       MessageConsumer.__init__ subscription (mock_handler fx)
         (mock_request_model fx) (mock_subscriber fx) h in
     created.1 = Return (consumer fx subscription)
     /\ _running created.2 = false
     /\ MessageConsumer.run (mock_json fx) (S fuel) (consumer fx subscription)
          created.2
        = Some (Return tt, created.2))
  /\ (forall h fuel,
     let created :=
       AsyncMessageConsumer.__init__ subscription (async_mock_handler fx)
         (mock_request_model fx) (async_mock_subscriber fx) h in
     created.1 = Return (async_consumer fx subscription)
     /\ _running created.2 = false
     /\ AsyncMessageConsumer.run (mock_json fx) (S fuel)
          (async_consumer fx subscription) created.2
        = Some (Return tt, created.2))
  /\ (forall h fuel,
     _running h = false ->
     run fx subscription v (S fuel) h = Some (Return tt, h))
  /\ (forall fuel h h',
     run fx subscription v fuel h = Some (Return tt, h')
     <-> exists k, k < fuel /\ iterations fx subscription v k h = Some h'
                   /\ _running h' = false)
  /\ (forall k h h',
     iterations fx subscription v k h = Some h' ->
     pulls (calls h') = pulls (calls h) + k)
  /\ (forall fuel h e h',
     run fx subscription v fuel h = Some (Raise e, h')
     <-> exists k hk, k < fuel /\ iterations fx subscription v k h = Some hk
                      /\ _running hk = true
                      /\ process_one_message fx subscription v hk = (Raise e, h')).
Proof.
  split; [done|]. split; [done|]. split; [|split; [|split]].
  - intros h fuel Hstopped. by rewrite run_S, Hstopped.
  - intros fuel h h'. apply run_returns.
  - intros k h h'. apply iterations_pulls.
  - intros fuel h e h'. apply run_raises.
Qed.

Lemma run_while_running_witness :
  let response payload id := {| received_messages := [example_message payload id] |} in
  let h :=
    example_heap true
      [response [Byte.x02] "1"; response [Byte.x03] "2"; response [Byte.x04] "3"] in
  run example_effects "sub" blocking 1 (example_heap false []) 
  = Some (Return tt, example_heap false [])
  /\ exists k h',
       run example_effects "sub" blocking 10 h = Some (Return tt, h')
       /\ k < 10 /\ iterations example_effects "sub" blocking k h = Some h'
       /\ _running h' = false /\ pulls (calls h') = 3.
Proof.
  intros response h.
  destruct (run_while_running example_effects "sub" blocking)
    as (_ & _ & Hstopped & Hreturns & Hpulls & _).
  split; [exact (Hstopped (example_heap false []) 0 eq_refl)|].
  destruct (run example_effects "sub" blocking 10 h) as [[[[]|e] h']|] eqn:Hrun;
    try (vm_compute in Hrun; discriminate).
  destruct (proj1 (Hreturns 10 h h') Hrun) as (k & Hk & Hiter & Hstop).
  exists k, h'. split; [reflexivity|]. split; [exact Hk|].
  split; [exact Hiter|]. split; [exact Hstop|].
  vm_compute in Hrun. injection Hrun as <-. reflexivity.
Defined.

(** ** When the broker fails *)

(** X1. When the consume generator yields a delivery and [cancel] then
    raises, [pull] raises the same exception and returns no response, yet the
    delivery's entry has been written to the correlation table. *)
Theorem pull_cancel_raises_keeps_entry {C : Type} `{!BlockingChannel C}
    (request : PullRequest.t) (timeout : Z) (self : RabbitMQSubscriber.t C)
    (method : Deliver) (properties : BasicProperties) (body : bytes)
    (items : list consumed) (c1 c2 : C) (e : exn) :
  consume (PullRequest.subscription request) false timeout
    (RabbitMQSubscriber._channel self)
  = (Return (Some (method, properties, body) :: items), c1) ->
  cancel c1 = (Raise e, c2) ->
  RabbitMQSubscriber.pull request timeout self
  = (Raise e,
     {| RabbitMQSubscriber._channel := c2;
        RabbitMQSubscriber._pending_acks :=
          <[str (delivery_tag method) := delivery_tag method]>
            (RabbitMQSubscriber._pending_acks self) |}).
Proof.
  intros Hconsume Hcancel. rewrite pull_run, Hconsume. cbn zeta.
  by rewrite Hcancel.
Qed.

Lemma pull_cancel_raises_keeps_entry_witness :
  let delivery : consumed := Some ({| delivery_tag := 1 |}, persistent, []) in
  let after :=
    RabbitMQSubscriber.pull
      {| PullRequest.subscription := "q"; PullRequest.max_messages := 1 |} 30
      (RabbitMQSubscriber.__init__ (Flaky [delivery])) in
  after.1 = Raise ConnectionClosed
  /\ RabbitMQSubscriber._pending_acks after.2 !! "1" = Some 1%Z.
Proof.
  intros delivery after. subst after.
  rewrite (pull_cancel_raises_keeps_entry
             {| PullRequest.subscription := "q"; PullRequest.max_messages := 1 |}
             30 (RabbitMQSubscriber.__init__ (Flaky [delivery]))
             {| delivery_tag := 1 |} persistent [] [] (Flaky []) (Flaky [])
             ConnectionClosed); [split; reflexivity | reflexivity | reflexivity].
Defined.

(** X2. [acknowledge] removes an id from the correlation table before it
    asks the broker: when [basic_ack] raises for the first id of a request,
    [acknowledge] raises the same exception, that id is gone from the table
    all the same, and the ids after it are not looked at. *)
Theorem acknowledge_raises_after_pop {C : Type} `{!BlockingChannel C}
    (request : AcknowledgeRequest.t) (self : RabbitMQSubscriber.t C)
    (ack_id : string) (rest : list string) (tag : Z) (e : exn) (c : C) :
  AcknowledgeRequest.ack_ids request = ack_id :: rest ->
  RabbitMQSubscriber._pending_acks self !! ack_id = Some tag ->
  basic_ack tag (RabbitMQSubscriber._channel self) = (Raise e, c) ->
  RabbitMQSubscriber.acknowledge request self
  = (Raise e,
     {| RabbitMQSubscriber._channel := c;
        RabbitMQSubscriber._pending_acks :=
          delete ack_id (RabbitMQSubscriber._pending_acks self) |}).
Proof.
  intros Hids Hlookup Hack. unfold RabbitMQSubscriber.acknowledge.
  rewrite Hids, acknowledge_loop_cons. cbn zeta. by rewrite Hlookup, Hack.
Qed.

Lemma acknowledge_raises_after_pop_witness :
  let self : RabbitMQSubscriber.t flaky_channel :=
    {| RabbitMQSubscriber._channel := Flaky [];
       RabbitMQSubscriber._pending_acks := {[ "1" := 1%Z; "2" := 2%Z ]} |} in
  let after :=
    RabbitMQSubscriber.acknowledge
      {| AcknowledgeRequest.subscription := "q";
         AcknowledgeRequest.ack_ids := ["1"; "2"] |} self in
  after.1 = Raise ConnectionClosed
  /\ RabbitMQSubscriber._pending_acks after.2 !! "1" = None
  /\ RabbitMQSubscriber._pending_acks after.2 !! "2" = Some 2%Z.
Proof.
  intros self after. subst after.
  rewrite (acknowledge_raises_after_pop
             {| AcknowledgeRequest.subscription := "q";
                AcknowledgeRequest.ack_ids := ["1"; "2"] |}
             self "1" ["2"] 1%Z ConnectionClosed (Flaky []));
    [repeat split | reflexivity | reflexivity | reflexivity].
Defined.

(** ** More on the adapter *)

Section recorded_pull.
Context {C : Type} `{!BlockingChannel C}.
Implicit Types self : RabbitMQSubscriber.t (MockChannel C).

(** [pull] on a recording channel, by what the wrapped channel answers. *)
Lemma pull_recorded request timeout self :
  RabbitMQSubscriber.pull request timeout self
  = let queue := PullRequest.subscription request in
    let ch := RabbitMQSubscriber._channel self in
    let table := RabbitMQSubscriber._pending_acks self in
    match consume queue false timeout (wraps ch) with
    | (Raise e, c1) =>
        (Raise e,
         {| RabbitMQSubscriber._channel :=
              {| method_calls :=
                   method_calls ch ++ [call_consume queue false timeout];
                 wraps := c1 |};
            RabbitMQSubscriber._pending_acks := table |})
    | (Return items, c1) =>
        let received :=
          match items with
          | Some (method, _, body) :: _ =>
              [ {| message := {| data := body |};
                   ack_id := str (delivery_tag method) |} ]
          | _ => []
          end in
        let table' :=
          match items with
          | Some (method, _, _) :: _ =>
              <[str (delivery_tag method) := delivery_tag method]> table
          | _ => table
          end in
        let ch' c2 :=
          {| method_calls :=
               method_calls ch ++ [call_consume queue false timeout; call_cancel];
             wraps := c2 |} in
        match cancel c1 with
        | (Return _, c2) =>
            (Return {| received_messages := received |},
             {| RabbitMQSubscriber._channel := ch' c2;
                RabbitMQSubscriber._pending_acks := table' |})
        | (Raise e, c2) =>
            (Raise e,
             {| RabbitMQSubscriber._channel := ch' c2;
                RabbitMQSubscriber._pending_acks := table' |})
        end
    end.
Proof.
  rewrite pull_run. cbn [consume cancel MockChannel_BlockingChannel].
  unfold forwarded. cbn zeta.
  destruct (consume _ _ _ (wraps _)) as [[items|e] c1]; [|done].
  cbn [method_calls wraps].
  destruct (cancel c1) as [[n|e] c2]; by rewrite <- app_assoc.
Qed.
End recorded_pull.

(** X3. The calls [pull] makes on its channel, and what it may touch in the
    table.  [pull] first calls [consume] on the requested queue with
    [auto_ack] off and the caller's timeout as inactivity timeout; when that
    raises, nothing else is called and the table is unchanged; when it
    returns, [pull] calls [cancel] next and nothing after it, also after a
    timeout.  [pull] never acknowledges and never publishes.  The only entry
    it can change is the one of the delivery the generator yielded first. *)
Theorem pull_consume_then_cancel {C : Type} `{!BlockingChannel C}
    (request : PullRequest.t) (timeout : Z)
    (self : RabbitMQSubscriber.t (MockChannel C)) :
  let queue := PullRequest.subscription request in
  let ch := RabbitMQSubscriber._channel self in
  let after := (RabbitMQSubscriber.pull request timeout self).2 in
  (forall e c1,
     consume queue false timeout (wraps ch) = (Raise e, c1) ->
     (RabbitMQSubscriber.pull request timeout self).1 = Raise e
     /\ method_calls (RabbitMQSubscriber._channel after)
        = method_calls ch ++ [call_consume queue false timeout]
     /\ RabbitMQSubscriber._pending_acks after
        = RabbitMQSubscriber._pending_acks self)
  /\ (forall items c1,
     consume queue false timeout (wraps ch) = (Return items, c1) ->
     method_calls (RabbitMQSubscriber._channel after)
     = method_calls ch ++ [call_consume queue false timeout; call_cancel])
  /\ (forall k,
     RabbitMQSubscriber._pending_acks after !! k
     <> RabbitMQSubscriber._pending_acks self !! k ->
     exists method properties body items c1,
       consume queue false timeout (wraps ch)
       = (Return (Some (method, properties, body) :: items), c1)
       /\ k = str (delivery_tag method)).
Proof.
  intros queue ch after. subst queue ch after.
  rewrite pull_recorded. cbn zeta. split; [|split].
  - intros e c1 Hconsume. by rewrite Hconsume.
  - intros items c1 Hconsume. rewrite Hconsume.
    by destruct (cancel c1) as [[n|e] c2].
  - intros k.
    destruct (consume _ _ _ (wraps _)) as [[items|e] c1]; [|done].
    destruct items as [|[[[method properties] body]|] items].
    + by destruct (cancel c1) as [[n|e] c2].
    + intros Hchanged. exists method, properties, body, items, c1.
      split; [done|].
      destruct (decide (str (delivery_tag method) = k)) as [|Hne]; [done|].
      destruct Hchanged.
      destruct (cancel c1) as [[n|e] c2]; cbn; by rewrite lookup_insert_ne.
    + by destruct (cancel c1) as [[n|e] c2].
Qed.

Lemma pull_consume_then_cancel_witness :
  let self : RabbitMQSubscriber.t (MockChannel (list consumed)) :=
    RabbitMQSubscriber.__init__ (mock_channel [None]) in
  let request :=
    {| PullRequest.subscription := "q"; PullRequest.max_messages := 5 |} in
  method_calls
    (RabbitMQSubscriber._channel (RabbitMQSubscriber.pull request 3 self).2)
  = [call_consume "q" false 3; call_cancel].
Proof.
  intros self request.
  apply (proj1 (proj2 (pull_consume_then_cancel request 3 self)) [None] []).
  reflexivity.
Defined.

(** X4. Pull and acknowledge round trip.  When the generator yields a
    delivery first and [cancel] returns, [pull] returns exactly one message:
    the delivery's body, byte for byte, with the string form of its delivery
    tag as ack id, and the table maps that id to the tag.  Acknowledging that
    id, under any subscription name, on a channel whose [basic_ack] returns,
    issues one [basic_ack] with the delivered tag, after the [consume] and the
    [cancel] of the pull, and removes the entry: the table is back to what it
    was before the pull when the id was not pending then. *)
Theorem pull_acknowledge_round_trip {C : Type} `{!BlockingChannel C}
    (request : PullRequest.t) (timeout : Z)
    (self : RabbitMQSubscriber.t (MockChannel C)) (any_subscription : string)
    (method : Deliver) (properties : BasicProperties) (body : bytes)
    (items : list consumed) (c1 c2 c3 : C) (requeued : Z) :
  let queue := PullRequest.subscription request in
  let ch := RabbitMQSubscriber._channel self in
  consume queue false timeout (wraps ch)
  = (Return (Some (method, properties, body) :: items), c1) ->
  cancel c1 = (Return requeued, c2) ->
  basic_ack (delivery_tag method) c2 = (Return tt, c3) ->
  let m := {| message := {| data := body |};
              ack_id := str (delivery_tag method) |} in
  let pulled := RabbitMQSubscriber.pull request timeout self in
  let acked :=
    RabbitMQSubscriber.acknowledge
      {| AcknowledgeRequest.subscription := any_subscription;
         AcknowledgeRequest.ack_ids := [ack_id m] |} pulled.2 in
  pulled.1 = Return {| received_messages := [m] |}
  /\ RabbitMQSubscriber._pending_acks pulled.2 !! ack_id m
     = Some (delivery_tag method)
  /\ acked.1 = Return tt
  /\ method_calls (RabbitMQSubscriber._channel acked.2)
     = method_calls ch
         ++ [call_consume queue false timeout; call_cancel;
             call_basic_ack (delivery_tag method)]
  /\ wraps (RabbitMQSubscriber._channel acked.2) = c3
  /\ RabbitMQSubscriber._pending_acks acked.2
     = delete (ack_id m) (RabbitMQSubscriber._pending_acks self)
  /\ (RabbitMQSubscriber._pending_acks self !! ack_id m = None ->
      RabbitMQSubscriber._pending_acks acked.2
      = RabbitMQSubscriber._pending_acks self).
Proof.
  intros queue ch Hconsume Hcancel Hack m pulled acked.
  subst queue ch m pulled acked.
  rewrite pull_recorded. cbn zeta. rewrite Hconsume, Hcancel.
  cbn [fst snd ack_id]. unfold RabbitMQSubscriber.acknowledge.
  cbn [AcknowledgeRequest.ack_ids]. rewrite acknowledge_loop_cons. cbn zeta.
  cbn [RabbitMQSubscriber._pending_acks RabbitMQSubscriber._channel].
  rewrite lookup_insert_eq.
  cbn [basic_ack MockChannel_BlockingChannel]. unfold forwarded.
  cbn [wraps method_calls]. rewrite Hack.
  cbn [RabbitMQSubscriber.acknowledge_loop]. unfold ret. cbn [fst snd].
  cbn [RabbitMQSubscriber._pending_acks RabbitMQSubscriber._channel
       wraps method_calls].
  rewrite delete_insert_eq.
  split; [done|]. split; [done|]. split; [done|].
  split; [by rewrite <- app_assoc|]. split; [done|]. split; [done|].
  apply delete_id.
Qed.

Lemma pull_acknowledge_round_trip_witness :
  let delivery : consumed :=
    Some ({| delivery_tag := 0 |}, persistent, [Byte.x00; Byte.xff]) in
  let self : RabbitMQSubscriber.t (MockChannel (list consumed)) :=
    RabbitMQSubscriber.__init__ (mock_channel [delivery]) in
  let request :=
    {| PullRequest.subscription := "q"; PullRequest.max_messages := 1 |} in
  let pulled := RabbitMQSubscriber.pull request 30 self in
  let acked :=
    RabbitMQSubscriber.acknowledge
      {| AcknowledgeRequest.subscription := "other";
         AcknowledgeRequest.ack_ids := ["0"] |} pulled.2 in
  pulled.1
  = Return {| received_messages :=
                [ {| message := {| data := [Byte.x00; Byte.xff] |};
                     ack_id := "0" |} ] |}
  /\ method_calls (RabbitMQSubscriber._channel acked.2)
     = [call_consume "q" false 30; call_cancel; call_basic_ack 0]
  /\ RabbitMQSubscriber._pending_acks acked.2 = ∅.
Proof.
  intros delivery self request pulled acked.
  destruct (pull_acknowledge_round_trip (C := list consumed) request 30 self
              "other" {| delivery_tag := 0 |} persistent [Byte.x00; Byte.xff]
              [] [] [] [] 0%Z)
    as (Hpulled & _ & _ & Hcalls & _ & _ & Hfresh);
    [reflexivity | reflexivity | reflexivity |].
  split; [exact Hpulled|]. split; [exact Hcalls|].
  exact (Hfresh eq_refl).
Defined.

(** X5. [acknowledge] stops at the first [basic_ack] that raises.  When
    [acknowledge] raises [e], the request reads [processed ++ ack_id :: rest] where
    [ack_id] was in the table, mapped to a tag whose [basic_ack] raised [e];
    [ack_id] and the ids of [processed] are gone from the table and every other
    entry, those of [rest] included, is as it was.  In particular
    [acknowledge] raises nothing of its own. *)
Theorem acknowledge_stops_at_failure {C : Type} `{!BlockingChannel C}
    (request : AcknowledgeRequest.t) (self self' : RabbitMQSubscriber.t C)
    (e : exn) :
  RabbitMQSubscriber.acknowledge request self = (Raise e, self') ->
  exists processed ack_id rest tag (c : C),
    AcknowledgeRequest.ack_ids request = processed ++ (ack_id :: rest)
    /\ (ack_id ∉ processed)
    /\ RabbitMQSubscriber._pending_acks self !! ack_id = Some tag
    /\ (basic_ack tag c).1 = Raise e
    /\ (forall k,
          RabbitMQSubscriber._pending_acks self' !! k
          = if decide (k ∈ processed ++ [ack_id]) then None
            else RabbitMQSubscriber._pending_acks self !! k).
Proof.
  unfold RabbitMQSubscriber.acknowledge.
  generalize (AcknowledgeRequest.ack_ids request). intros ack_ids.
  revert self. induction ack_ids as [|first ack_ids IH]; intros self; [done|].
  rewrite acknowledge_loop_cons. cbn zeta.
  assert (forall self2 : RabbitMQSubscriber.t C,
            RabbitMQSubscriber._pending_acks self2
            = delete first (RabbitMQSubscriber._pending_acks self) ->
            RabbitMQSubscriber.acknowledge_loop ack_ids self2 = (Raise e, self') ->
            exists processed ack_id rest tag (c : C),
              first :: ack_ids = processed ++ (ack_id :: rest)
              /\ (ack_id ∉ processed)
              /\ RabbitMQSubscriber._pending_acks self !! ack_id = Some tag
              /\ (basic_ack tag c).1 = Raise e
              /\ (forall k,
                    RabbitMQSubscriber._pending_acks self' !! k
                    = if decide (k ∈ processed ++ [ack_id]) then None
                      else RabbitMQSubscriber._pending_acks self !! k))
    as Hcontinue.
  { intros self2 Hself2 Hrun.
    destruct (IH self2 Hrun) as (processed & ack_id & rest & tag & c & -> & Hnot & Hl & Hack & Hk).
    rewrite Hself2 in Hl. apply lookup_delete_Some in Hl as [Hne Hl].
    exists (first :: processed), ack_id, rest, tag, c.
    split; [done|]. split; [rewrite not_elem_of_cons; split; congruence|].
    split; [done|]. split; [done|].
    intros k. rewrite Hk, Hself2, lookup_delete.
    repeat case_decide; try done; set_solver. }
  destruct (RabbitMQSubscriber._pending_acks self !! first) as [tag|] eqn:Hlookup.
  - destruct (basic_ack tag (RabbitMQSubscriber._channel self)) as [[[]|e'] c] eqn:Hack.
    + by apply Hcontinue.
    + intros Heq. simplify_eq/=.
      exists [], first, ack_ids, tag, (RabbitMQSubscriber._channel self).
      split; [done|]. split; [apply not_elem_of_nil|]. split; [done|].
      split; [by rewrite Hack|].
      intros k. rewrite lookup_delete.
      repeat case_decide; try done; set_solver.
  - by apply Hcontinue.
Qed.

Lemma acknowledge_stops_at_failure_witness :
  let self : RabbitMQSubscriber.t flaky_channel :=
    {| RabbitMQSubscriber._channel := Flaky [];
       RabbitMQSubscriber._pending_acks := {[ "2" := 2%Z; "3" := 3%Z ]} |} in
  let request :=
    {| AcknowledgeRequest.subscription := "q";
       AcknowledgeRequest.ack_ids := ["1"; "2"; "3"] |} in
  exists processed ack_id rest tag,
    ["1"; "2"; "3"] = processed ++ (ack_id :: rest)
    /\ RabbitMQSubscriber._pending_acks self !! ack_id = Some tag
    /\ forall k,
         RabbitMQSubscriber._pending_acks
           (RabbitMQSubscriber.acknowledge request self).2 !! k
         = if decide (k ∈ processed ++ [ack_id]) then None
           else RabbitMQSubscriber._pending_acks self !! k.
Proof.
  intros self request.
  destruct (RabbitMQSubscriber.acknowledge request self) as [o self'] eqn:Hrun.
  assert (o = Raise ConnectionClosed) as -> by (by injection Hrun as <- _).
  destruct (acknowledge_stops_at_failure request self self' ConnectionClosed Hrun)
    as (processed & ack_id & rest & tag & c & Hids & _ & Hl & _ & Hk).
  by exists processed, ack_id, rest, tag.
Defined.

(** ** More on the publisher *)

Section publisher_outcome.
Context {C : Type} `{!BlockingChannel C}.
Implicit Types self : RabbitMQPublisher.t C.

(** On any channel every topic is parsed one way or the other. *)
Lemma publish_parsed_any {Any} topic data (kwargs : gmap string Any) self :
  exists exchange routing_key,
    RabbitMQPublisher.publish topic data kwargs self
    = publish_to exchange routing_key data self.
Proof.
  unfold RabbitMQPublisher.publish, publish_to.
  destruct (str_contains ":" topic) eqn:Hcontains.
  - apply str_contains_chars, chars_first_occurrence in Hcontains.
    destruct Hcontains as (before & after & -> & Hnot).
    rewrite str_split_first by done. by exists before, after.
  - by exists "", topic.
Qed.
End publisher_outcome.

(** X6. [publish] succeeds or fails with the broker.  For every topic there
    are an exchange and a routing key such that [publish] does what the one
    [basic_publish] of the payload, unchanged, with the persistent properties
    does: when that returns, [publish] returns a future whose message id, and
    so its [result()], is the empty string; when that raises, [publish] raises
    the same exception.  So unpacking the split topic never raises, and
    [publish] raises nothing of its own. *)
Theorem publish_outcome {C : Type} `{!BlockingChannel C} {Any : Type}
    (topic : string) (data : bytes) (kwargs : gmap string Any)
    (self : RabbitMQPublisher.t C) :
  (exists exchange routing_key,
     match basic_publish exchange routing_key data
             {| headers := None; delivery_mode := Some 2%Z |}
             (RabbitMQPublisher._channel self) with
     | (Return _, c) =>
         RabbitMQPublisher.publish topic data kwargs self
         = (Return {| message_id := "" |}, {| RabbitMQPublisher._channel := c |})
     | (Raise e, c) =>
         RabbitMQPublisher.publish topic data kwargs self
         = (Raise e, {| RabbitMQPublisher._channel := c |})
     end)
  /\ (forall future self',
        RabbitMQPublisher.publish topic data kwargs self = (Return future, self') ->
        result future = "").
Proof.
  destruct (publish_parsed_any topic data kwargs self)
    as (exchange & routing_key & Hparsed).
  rewrite Hparsed. unfold publish_to, bind, RabbitMQPublisher.on_channel, ret.
  fold persistent. split.
  - exists exchange, routing_key.
    by destruct (basic_publish exchange routing_key data persistent _) as [[[]|e] c].
  - intros future self'.
    destruct (basic_publish exchange routing_key data persistent _) as [[[]|e] c];
      [|done].
    by intros [= <- _].
Qed.

Lemma publish_outcome_witness :
  (RabbitMQPublisher.publish "ex:rk" [Byte.xff] (∅ : gmap string string)
     (RabbitMQPublisher.__init__ (C := list consumed) [])).1
  = Return {| message_id := "" |}
  /\ (RabbitMQPublisher.publish "ex:rk" [Byte.xff] (∅ : gmap string string)
        (RabbitMQPublisher.__init__ Closed)).1
     = Raise ConnectionClosed.
Proof.
  split.
  - destruct (publish_outcome (C := list consumed) "ex:rk" [Byte.xff]
                (∅ : gmap string string) (RabbitMQPublisher.__init__ []))
      as [(exchange & routing_key & Hsame) _].
    cbn in Hsame. by rewrite Hsame.
  - destruct (publish_outcome (C := closed_channel) "ex:rk" [Byte.xff]
                (∅ : gmap string string) (RabbitMQPublisher.__init__ Closed))
      as [(exchange & routing_key & Hsame) _].
    cbn in Hsame. by rewrite Hsame.
Defined.

(** ** More on the consumer loop *)

Section consumer_more.
Context {W Json Request : Type}.
Variable fx : @SideEffects W Json Request.
Variable subscription : string.
Implicit Types h : Heap (Mock W Json Request).

Lemma count_calls_app (kind : consumer_call Json Request -> bool) l l' :
  count_calls kind (l ++ l') = count_calls kind l + count_calls kind l'.
Proof. unfold count_calls. by rewrite List.filter_app, length_app. Qed.

Local Ltac count_all :=
  cbn [fst snd]; rewrite ?calls_recorded, ?count_calls_app; cbn; lia.

(** One [process_one_message] adds at most one call of each kind, never an
    acknowledge without a handler call before it, and as many acknowledges as
    decodings when it returns normally. *)
Lemma process_one_message_counts v h :
  let after := process_one_message fx subscription v h in
  exists l m d a,
    count_calls is_loads (calls after.2) = count_calls is_loads (calls h) + l
    /\ count_calls is_request_model (calls after.2)
       = count_calls is_request_model (calls h) + m
    /\ count_calls is_handle (calls after.2)
       = count_calls is_handle (calls h) + d
    /\ count_calls is_acknowledge (calls after.2)
       = count_calls is_acknowledge (calls h) + a
    /\ a <= d /\ d <= m /\ m <= l /\ l <= 1
    /\ (forall u, after.1 = Return u -> a = l).
Proof.
  cbn zeta. rewrite process_one_message_run. cbn zeta.
  destruct (on_pull fx _ _ _) as [[response|e] h1].
  2: { exists 0, 0, 0, 0. repeat split; try done; count_all. }
  destruct (received_messages response) as [|msg rest].
  { exists 0, 0, 0, 0. repeat split; try done; count_all. }
  destruct (on_loads fx _ h1) as [[message_data|e] h2].
  2: { exists 1, 0, 0, 0. repeat split; try done; try lia; count_all. }
  destruct (on_request_model fx _ h2) as [[request|e] h3].
  2: { exists 1, 1, 0, 0. repeat split; try done; try lia; count_all. }
  destruct (on_handle fx _ h3) as [[[]|e] h4].
  2: { exists 1, 1, 1, 0. repeat split; try done; try lia; count_all. }
  destruct (on_acknowledge fx _ h4) as [o h5].
  exists 1, 1, 1, 1. repeat split; try done; try lia; count_all.
Qed.

(** Whole iterations handle and acknowledge the same number of messages. *)
Lemma iterations_counts v k h h' :
  iterations fx subscription v k h = Some h' ->
  exists n,
    n <= k
    /\ count_calls is_loads (calls h') = count_calls is_loads (calls h) + n
    /\ count_calls is_request_model (calls h')
       = count_calls is_request_model (calls h) + n
    /\ count_calls is_handle (calls h') = count_calls is_handle (calls h) + n
    /\ count_calls is_acknowledge (calls h')
       = count_calls is_acknowledge (calls h) + n.
Proof.
  revert h. induction k as [|k IH]; intros h; cbn [iterations].
  - intros [= <-]. exists 0. repeat split; lia.
  - destruct (_running h); [|done].
    destruct (process_one_message_counts v h)
      as (l & m & d & a & Hl & Hm & Hd & Ha & Had & Hdm & Hml & Hl1 & Hret).
    cbn zeta in *.
    destruct (process_one_message fx subscription v h) as [[[]|e] h1]; [|done].
    cbn [fst snd] in *. specialize (Hret tt eq_refl).
    intros (n & Hn & Hl' & Hm' & Hd' & Ha')%IH.
    exists (n + l). repeat split; lia.
Qed.

(** A loop that was running when [run] began has pulled at least once. *)
Lemma run_pulls_once v fuel h o h' :
  _running h = true ->
  run fx subscription v fuel h = Some (o, h') ->
  S (pulls (calls h)) <= pulls (calls h').
Proof.
  intros Hrunning Hrun. destruct o as [[]|e].
  - apply run_returns in Hrun as (k & _ & Hiter & Hstop).
    destruct k as [|k].
    + cbn in Hiter. injection Hiter as <-. congruence.
    + apply iterations_pulls in Hiter. lia.
  - apply run_raises in Hrun as (k & hk & _ & Hiter & _ & Hraise).
    apply iterations_pulls in Hiter.
    pose proof (process_one_message_pulls fx subscription v hk) as Hone.
    rewrite Hraise in Hone. cbn in Hone. lia.
Qed.
End consumer_more.

(** X7. A pull that raises ends the iteration there.  When the subscriber's
    [pull] raises [e], [process_one_message] (blocking and [async]) raises
    [e]; the pull is the only call it made, so nothing is decoded, handled or
    acknowledged; the heap is as the pull left it; and a running loop raises
    [e] from that iteration. *)
Theorem process_one_message_pull_fails {W Json Request : Type}
    (fx : @SideEffects W Json Request) (subscription : string) (v : variant)
    (h : Heap (Mock W Json Request)) (e : exn) (h1 : Heap W) :
  on_pull fx
    {| PullRequest.subscription := subscription; PullRequest.max_messages := 1 |}
    30 (unwrapped h)
  = (Raise e, h1) ->
  let after := process_one_message fx subscription v h in
  after.1 = Raise e
  /\ calls after.2
     = calls h
         ++ [call_pull {| PullRequest.subscription := subscription;
                          PullRequest.max_messages := 1 |} 30]
  /\ unwrapped after.2 = h1
  /\ (forall fuel,
        _running h = true ->
        run fx subscription v (S fuel) h = Some (Raise e, after.2)).
Proof.
  intros Hpull after. subst after.
  pose proof (process_one_message_run fx subscription v h) as Hrun.
  cbn zeta in Hrun. unfold pull_request in Hrun. rewrite Hpull in Hrun.
  rewrite Hrun. split; [done|]. split; [done|].
  split; [apply unwrapped_recorded|].
  intros fuel Hrunning. by rewrite run_S, Hrunning, Hrun.
Qed.

Lemma process_one_message_pull_fails_witness :
  let fx := answering {| received_messages := [] |}
              {| _running := true; world := [] |} example_effects in
  let broken : @SideEffects (list PullResponse) bytes bytes :=
    {| on_pull _ _ := raise ConnectionClosed;
       on_loads := on_loads fx; on_request_model := on_request_model fx;
       on_handle := on_handle fx; on_acknowledge := on_acknowledge fx |} in
  run broken "sub" suspending 5 (example_heap true [])
  = Some (Raise ConnectionClosed,
          (process_one_message broken "sub" suspending (example_heap true [])).2)
  /\ calls (process_one_message broken "sub" suspending (example_heap true [])).2
     = [call_pull {| PullRequest.subscription := "sub";
                     PullRequest.max_messages := 1 |} 30].
Proof.
  intros fx broken.
  destruct (process_one_message_pull_fails broken "sub" suspending
              (example_heap true []) ConnectionClosed
              {| _running := true; world := [] |} eq_refl)
    as (_ & Hcalls & _ & Hloop).
  split; [exact (Hloop 4 eq_refl) | exact Hcalls].
Defined.

(** X8. What [run] handles it acknowledges, one message at a time.  Whenever
    [run] ends, the calls it recorded satisfy: acknowledges <= handler calls
    <= validations <= decodings <= pulls, and decodings <= acknowledges + 1, so
    at most one message is ever begun and not acknowledged.  When [run]
    returns normally the four counts after the pulls are equal: every message
    that was decoded was validated, handled and acknowledged. *)
Theorem run_acknowledges_what_it_handles {W Json Request : Type}
    (fx : @SideEffects W Json Request) (subscription : string) (v : variant)
    (fuel : nat) (h h' : Heap (Mock W Json Request)) (o : outcome unit) :
  run fx subscription v fuel h = Some (o, h') ->
  exists p l m d a,
    pulls (calls h') = pulls (calls h) + p
    /\ count_calls is_loads (calls h') = count_calls is_loads (calls h) + l
    /\ count_calls is_request_model (calls h')
       = count_calls is_request_model (calls h) + m
    /\ count_calls is_handle (calls h') = count_calls is_handle (calls h) + d
    /\ count_calls is_acknowledge (calls h')
       = count_calls is_acknowledge (calls h) + a
    /\ a <= d /\ d <= m /\ m <= l /\ l <= p /\ l <= a + 1
    /\ (o = Return tt -> a = l).
Proof.
  destruct o as [[]|e]; intros Hrun.
  - apply run_returns in Hrun as (k & _ & Hiter & _).
    pose proof (iterations_pulls _ _ _ _ _ _ Hiter) as Hp.
    destruct (iterations_counts _ _ _ _ _ _ Hiter)
      as (n & Hn & Hl & Hm & Hd & Ha).
    exists k, n, n, n, n. repeat split; try done; lia.
  - apply run_raises in Hrun as (k & hk & _ & Hiter & _ & Hraise).
    pose proof (iterations_pulls _ _ _ _ _ _ Hiter) as Hp.
    destruct (iterations_counts _ _ _ _ _ _ Hiter)
      as (n & Hn & Hl & Hm & Hd & Ha).
    pose proof (process_one_message_pulls fx subscription v hk) as Hp1.
    destruct (process_one_message_counts fx subscription v hk)
      as (l & m & d & a & Hl1 & Hm1 & Hd1 & Ha1 & Had & Hdm & Hml & Hle & _).
    cbn zeta in *. rewrite Hraise in *. cbn [fst snd] in *.
    exists (S k), (n + l), (n + m), (n + d), (n + a).
    repeat split; try done; lia.
Qed.

Lemma run_acknowledges_what_it_handles_witness :
  let response payload id := {| received_messages := [example_message payload id] |} in
  let h :=
    example_heap true
      [response [Byte.x02] "1"; {| received_messages := [] |};
       response [Byte.x01] "2"] in
  exists h' p l a,
    run example_effects "sub" blocking 10 h
    = Some (Raise (Exception "RuntimeError" ""), h')
    /\ pulls (calls h') = p /\ count_calls is_loads (calls h') = l
    /\ count_calls is_acknowledge (calls h') = a
    /\ a <= l /\ l <= p /\ l <= a + 1.
Proof.
  intros response h.
  destruct (run example_effects "sub" blocking 10 h) as [[o h']|] eqn:Hrun;
    [|vm_compute in Hrun; discriminate].
  assert (o = Raise (Exception "RuntimeError" "")) as ->.
  { vm_compute in Hrun. by injection Hrun as <- _. }
  destruct (run_acknowledges_what_it_handles _ _ _ _ _ _ _ Hrun)
    as (p & l & m & d & a & Hp & Hl & Hm & Hd & Ha & Had & Hdm & Hml & Hlp & Hla & _).
  exists h', p, l, a. cbn in Hp, Hl, Ha. rewrite Hp, Hl, Ha.
  repeat split; lia.
Defined.

(** X9. [start()] and [stop()] and the loop.  Neither call raises or touches
    anything but the flag; the later of the two decides.  [run] after
    [stop()] returns at once without pulling.  [run] after [start()], when it
    ends, has pulled at least once, even if something stops the consumer
    during the first iteration: stopping takes effect at the next iteration
    boundary. *)
Theorem start_stop_run {W Json Request : Type}
    (fx : @SideEffects W Json Request) (subscription : string) (v : variant)
    (h : Heap (Mock W Json Request)) :
  let started := (start fx subscription v h).2 in
  let stopped := (stop fx subscription v h).2 in
  ((start fx subscription v h).1 = Return tt
   /\ _running started = true /\ world started = world h)
  /\ ((stop fx subscription v h).1 = Return tt
      /\ _running stopped = false /\ world stopped = world h)
  /\ (start fx subscription v stopped).2 = started
  /\ (stop fx subscription v started).2 = stopped
  /\ (forall fuel,
        run fx subscription v (S fuel) stopped = Some (Return tt, stopped))
  /\ (forall fuel o h',
        run fx subscription v fuel started = Some (o, h') ->
        S (pulls (calls h)) <= pulls (calls h')).
Proof.
  intros started stopped. subst started stopped.
  split; [by destruct v|]. split; [by destruct v|].
  split; [by destruct v|]. split; [by destruct v|]. split.
  - intros fuel. rewrite run_S. by destruct v.
  - intros fuel o h' Hrun.
    apply run_pulls_once in Hrun; [|by destruct v].
    by destruct v.
Qed.

Lemma start_stop_run_witness :
  let response payload id := {| received_messages := [example_message payload id] |} in
  let h := example_heap false [response [Byte.x02] "1"] in
  exists h',
    run example_effects "sub" blocking 5 (start example_effects "sub" blocking h).2
    = Some (Return tt, h')
    /\ 1 <= pulls (calls h').
Proof.
  intros response h.
  destruct (run example_effects "sub" blocking 5
              (start example_effects "sub" blocking h).2) as [[o h']|] eqn:Hrun;
    [|vm_compute in Hrun; discriminate].
  assert (o = Return tt) as -> by (vm_compute in Hrun; by injection Hrun as <- _).
  exists h'. split; [reflexivity|].
  destruct (start_stop_run example_effects "sub" blocking h)
    as (_ & _ & _ & _ & _ & Hpulls).
  exact (Hpulls 5 (Return tt) h' Hrun).
Defined.

(** ** The consumer over the RabbitMQ subscriber *)

Local Ltac wired_pull Hone Hconsume Hcancel :=
  rewrite process_one_message_run in Hone; cbn zeta in Hone;
  cbn [on_pull on_loads on_request_model on_handle on_acknowledge
       rabbitmq_effects Protocols.pull Protocols.acknowledge
       RabbitMQSubscriber.as_PubSubSubscriber] in Hone;
  unfold on_adapter at 1 in Hone; unfold pull_request, adapter_of, app_of in *;
  cbn [unwrapped world wrapped adapter app _running PullRequest.subscription]
    in Hone;
  rewrite pull_recorded in Hone; cbn zeta in Hone;
  cbn [PullRequest.subscription] in Hone;
  rewrite Hconsume, Hcancel in Hone;
  cbn [received_messages message data] in Hone.

Local Ltac wired_app Hone :=
  unfold on_app at 1 in Hone; cbn [world app _running adapter] in Hone.

Local Ltac wired_projections :=
  cbn [fst snd recorded unwrapped world wrapped adapter app _running mock_calls
       RabbitMQSubscriber._pending_acks RabbitMQSubscriber._channel wraps
       method_calls].

(** X10. End to end, the successful path.  Let the subscriber of a blocking
    [MessageConsumer] be the RabbitMQ adapter on a recording channel.  When
    the generator yields a delivery first, [cancel] returns, the application
    decodes, validates and handles the delivered body normally and
    [basic_ack] returns, then [MessageConsumer.process_one_message] returns
    normally; the broker saw, in this order, [consume] on the consumer's subscription with
    [auto_ack] off and timeout 30, [cancel], and [basic_ack] with the
    delivered tag; the delivery's entry is gone from the correlation table
    again; and the application is as its handler left it. *)
Theorem consume_handle_acknowledge {C U Json Request : Type}
    `{!BlockingChannel C} (a : Application U Json Request)
    (subscription : string)
    (h : Heap (Mock (Host (MockChannel C) U) Json Request))
    (method : Deliver) (properties : BasicProperties) (body : bytes)
    (items : list consumed) (c1 c2 c3 : C) (requeued : Z) (u : Heap U) :
  let ch := RabbitMQSubscriber._channel (adapter_of h) in
  consume subscription false 30 (wraps ch)
  = (Return (Some (method, properties, body) :: items), c1) ->
  cancel c1 = (Return requeued, c2) ->
  app_process a body (app_of h) = (Return tt, u) ->
  basic_ack (delivery_tag method) c2 = (Return tt, c3) ->
  let after := wired_process_one_message a subscription h in
  after.1 = Return tt
  /\ method_calls (RabbitMQSubscriber._channel (adapter_of after.2))
     = method_calls ch
         ++ [call_consume subscription false 30; call_cancel;
             call_basic_ack (delivery_tag method)]
  /\ wraps (RabbitMQSubscriber._channel (adapter_of after.2)) = c3
  /\ RabbitMQSubscriber._pending_acks (adapter_of after.2)
     = delete (str (delivery_tag method))
         (RabbitMQSubscriber._pending_acks (adapter_of h))
  /\ app_of after.2 = u.
Proof.
  intros ch Hconsume Hcancel Happ Hack after. subst ch after.
  destruct (wired_process_one_message a subscription h) as [o h'] eqn:Hone.
  change (process_one_message (rabbitmq_effects a) subscription blocking h
          = (o, h')) in Hone.
  wired_pull Hone Hconsume Hcancel.
  unfold app_process, bind in Happ.
  wired_app Hone.
  destruct (app_loads a body _) as [[message_data|e] [r1 u1]]; [|done].
  wired_app Hone.
  destruct (app_request_model a message_data _) as [[request|e] [r2 u2]]; [|done].
  wired_app Hone. rewrite Happ in Hone.
  unfold on_adapter, acknowledge_request, RabbitMQSubscriber.acknowledge in Hone.
  cbn [world app _running adapter AcknowledgeRequest.ack_ids ack_id recorded]
    in Hone.
  rewrite acknowledge_loop_cons in Hone. cbn zeta in Hone.
  cbn [RabbitMQSubscriber._pending_acks RabbitMQSubscriber._channel] in Hone.
  rewrite lookup_insert_eq in Hone.
  cbn [basic_ack MockChannel_BlockingChannel] in Hone. unfold forwarded in Hone.
  cbn [wraps method_calls] in Hone. rewrite Hack in Hone.
  cbn [RabbitMQSubscriber.acknowledge_loop] in Hone. unfold ret in Hone.
  injection Hone as <- <-. wired_projections.
  rewrite delete_insert_eq, <- app_assoc.
  split; [done|]. split; [done|]. split; [done|]. split; [done|].
  by destruct u.
Qed.

(** X11. End to end, a failing application.  In the same wiring, when the
    generator yields a delivery first, [cancel] returns and decoding,
    validation or the handler raises [e] on the delivered body, then
    [MessageConsumer.process_one_message] raises [e]; the broker saw
    [consume] and [cancel] and no [basic_ack]; and the delivery's entry stays
    in the correlation table: the message is left unacknowledged at the broker
    and its ack id can still be acknowledged. *)
Theorem consume_failure_leaves_unacknowledged {C U Json Request : Type}
    `{!BlockingChannel C} (a : Application U Json Request)
    (subscription : string)
    (h : Heap (Mock (Host (MockChannel C) U) Json Request))
    (method : Deliver) (properties : BasicProperties) (body : bytes)
    (items : list consumed) (c1 c2 : C) (requeued : Z) (e : exn) (u : Heap U) :
  let ch := RabbitMQSubscriber._channel (adapter_of h) in
  consume subscription false 30 (wraps ch)
  = (Return (Some (method, properties, body) :: items), c1) ->
  cancel c1 = (Return requeued, c2) ->
  app_process a body (app_of h) = (Raise e, u) ->
  let after := wired_process_one_message a subscription h in
  after.1 = Raise e
  /\ method_calls (RabbitMQSubscriber._channel (adapter_of after.2))
     = method_calls ch ++ [call_consume subscription false 30; call_cancel]
  /\ wraps (RabbitMQSubscriber._channel (adapter_of after.2)) = c2
  /\ RabbitMQSubscriber._pending_acks (adapter_of after.2)
     = <[str (delivery_tag method) := delivery_tag method]>
         (RabbitMQSubscriber._pending_acks (adapter_of h))
  /\ app_of after.2 = u.
Proof.
  intros ch Hconsume Hcancel Happ after. subst ch after.
  destruct (wired_process_one_message a subscription h) as [o h'] eqn:Hone.
  change (process_one_message (rabbitmq_effects a) subscription blocking h
          = (o, h')) in Hone.
  wired_pull Hone Hconsume Hcancel.
  unfold app_process, bind in Happ.
  wired_app Hone.
  destruct (app_loads a body _) as [[message_data|e1] [r1 u1]].
  2: { simplify_eq. by wired_projections. }
  wired_app Hone.
  destruct (app_request_model a message_data _) as [[request|e2] [r2 u2]].
  2: { simplify_eq. by wired_projections. }
  wired_app Hone. rewrite Happ in Hone.
  injection Hone as <- <-. wired_projections. by destruct u.
Qed.

Lemma consume_handle_acknowledge_witness :
  let delivery : consumed := Some ({| delivery_tag := 5 |}, persistent, [Byte.x7b]) in
  let after :=
    wired_process_one_message example_application "q"
      (example_host [delivery]) in
  after.1 = Return tt
  /\ method_calls (RabbitMQSubscriber._channel (adapter_of after.2))
     = [call_consume "q" false 30; call_cancel; call_basic_ack 5]
  /\ RabbitMQSubscriber._pending_acks (adapter_of after.2) !! "5" = None
  /\ _running after.2 = false.
Proof.
  intros delivery after. subst after.
  destruct (consume_handle_acknowledge (C := list consumed) example_application
              "q" (example_host [delivery]) {| delivery_tag := 5 |}
              persistent [Byte.x7b] [] [] [] [] 0%Z
              {| _running := false; world := tt |})
    as (Hret & Hcalls & _ & Htable & Happ);
    [reflexivity | reflexivity | reflexivity | reflexivity |].
  split; [exact Hret|]. split; [exact Hcalls|].
  split; [rewrite Htable; apply lookup_delete_eq|].
  exact (f_equal _running Happ).
Defined.

Lemma consume_failure_leaves_unacknowledged_witness :
  let delivery : consumed := Some ({| delivery_tag := 5 |}, persistent, [Byte.x7b]) in
  let after :=
    wired_process_one_message failing_application "q"
      (example_host [delivery]) in
  after.1 = Raise (Exception "RuntimeError" "")
  /\ method_calls (RabbitMQSubscriber._channel (adapter_of after.2))
     = [call_consume "q" false 30; call_cancel]
  /\ RabbitMQSubscriber._pending_acks (adapter_of after.2) !! "5" = Some 5%Z.
Proof.
  intros delivery after. subst after.
  destruct (consume_failure_leaves_unacknowledged (C := list consumed)
              failing_application "q" (example_host [delivery])
              {| delivery_tag := 5 |} persistent [Byte.x7b] [] [] [] 0%Z
              (Exception "RuntimeError" "") {| _running := true; world := tt |})
    as (Hraise & Hcalls & _ & Htable & _);
    [reflexivity | reflexivity | reflexivity |].
  split; [exact Hraise|]. split; [exact Hcalls|].
  rewrite Htable. apply lookup_insert_eq.
Defined.

(** X12. End to end, the idle iteration.  In the same wiring, when the
    generator yields no delivery first (the timeout marker, or nothing) and
    [cancel] returns, [MessageConsumer.process_one_message] returns
    normally; the broker saw [consume] and [cancel] only; the pull is the only
    call the consumer made, so the application was not invoked and is
    unchanged; and the correlation table and the flag are unchanged. *)
Theorem consume_timeout_is_idle {C U Json Request : Type}
    `{!BlockingChannel C} (a : Application U Json Request)
    (subscription : string)
    (h : Heap (Mock (Host (MockChannel C) U) Json Request))
    (items : list consumed) (c1 c2 : C) (requeued : Z) :
  let ch := RabbitMQSubscriber._channel (adapter_of h) in
  consume subscription false 30 (wraps ch) = (Return items, c1) ->
  (forall delivery, head items <> Some (Some delivery)) ->
  cancel c1 = (Return requeued, c2) ->
  let after := wired_process_one_message a subscription h in
  after.1 = Return tt
  /\ method_calls (RabbitMQSubscriber._channel (adapter_of after.2))
     = method_calls ch ++ [call_consume subscription false 30; call_cancel]
  /\ calls after.2
     = calls h
         ++ [call_pull {| PullRequest.subscription := subscription;
                          PullRequest.max_messages := 1 |} 30]
  /\ RabbitMQSubscriber._pending_acks (adapter_of after.2)
     = RabbitMQSubscriber._pending_acks (adapter_of h)
  /\ app_of after.2 = app_of h.
Proof.
  intros ch Hconsume Hnone Hcancel after. subst ch after.
  destruct (wired_process_one_message a subscription h) as [o h'] eqn:Hone.
  change (process_one_message (rabbitmq_effects a) subscription blocking h
          = (o, h')) in Hone.
  wired_pull Hone Hconsume Hcancel.
  destruct items as [|[[[method properties] body]|] items].
  - injection Hone as <- <-. by wired_projections.
  - by destruct (Hnone (method, properties, body)).
  - injection Hone as <- <-. by wired_projections.
Qed.

Lemma consume_timeout_is_idle_witness :
  let after :=
    wired_process_one_message failing_application "q" (example_host [None]) in
  after.1 = Return tt
  /\ method_calls (RabbitMQSubscriber._channel (adapter_of after.2))
     = [call_consume "q" false 30; call_cancel]
  /\ calls after.2
     = [call_pull {| PullRequest.subscription := "q";
                     PullRequest.max_messages := 1 |} 30].
Proof.
  intros after. subst after.
  destruct (consume_timeout_is_idle (C := list consumed) failing_application
              "q" (example_host [None]) [None] [] [] 0%Z)
    as (Hret & Hbroker & Hcalls & _);
    [reflexivity | intros delivery; discriminate | reflexivity |].
  split; [exact Hret|]. split; [exact Hbroker | exact Hcalls].
Defined.
